(** * Life Under Inflation: the decision engine of [src/script.js]

    A shallow embedding of the simulation engine ([updateEconomy],
    [applyAction], [forecastSurvival], [calculateUtility],
    [chooseBestAction], [runSimulation]) and the properties its
    specification states about it.  [algo.js] holds the same functions with
    the run counts fixed as module constants.

    Modelling decisions.
    - A JavaScript number is a [num]: a rational, [NaN], or one of the two
      infinities.  Arithmetic on rationals is exact (no binary64 rounding or
      overflow) and zero has no sign; the special values follow IEEE 754,
      which is what JavaScript prescribes.  The engine divides by zero only
      as 0/0.
    - State objects live in a heap and are passed by reference: a function
      of the source that receives [simState] receives a location here, and
      each property read or write is a heap access.
    - [Math.random] is not modelled: the Gaussian sampler is a parameter
      ([sample]) that threads a generator state of its own.
    - The numbers of forecast months and of simulated months are counts,
      hence natural numbers.  So is the number of runs in
      [forecastSurvival] and [chooseBestAction]; the source compares and
      divides by whatever number it is given, and [forecastSurvival_number]
      and [chooseBestAction_number], at the end of the file, take the number
      of runs as a [num] and agree with the former on whole numbers. *)

From Stdlib Require Import QArith Qreduction Lqa Qround.
From stdpp Require Import gmap strings list.

Local Open Scope Q_scope.

(** ** Numbers *)

Inductive num : Type :=
| NaN
| NInf
| Fin (q : Q)
| PInf.

(** A decimal literal of the source. *)
Definition real (q : Q) : num := Fin (Qred q).

Module Num.

Definition of_nat (n : nat) : num := Fin (inject_Z (Z.of_nat n)).

Definition add (a b : num) : num :=
  match a, b with
  | NaN, _ | _, NaN => NaN
  | PInf, NInf | NInf, PInf => NaN
  | PInf, _ | _, PInf => PInf
  | NInf, _ | _, NInf => NInf
  | Fin x, Fin y => Fin (Qred (x + y))
  end.

Definition sub (a b : num) : num :=
  match a, b with
  | NaN, _ | _, NaN => NaN
  | PInf, PInf | NInf, NInf => NaN
  | PInf, _ | _, NInf => PInf
  | NInf, _ | _, PInf => NInf
  | Fin x, Fin y => Fin (Qred (x - y))
  end.

(** The sign of a rational as -1, 0 or 1. *)
Definition sgn (x : Q) : Z := Z.sgn (Qnum x).

(** An infinity of the given sign; the sign 0 stands for [Infinity * 0]. *)
Definition inf_of_sign (s : Z) : num :=
  match s with
  | Z0 => NaN
  | Zpos _ => PInf
  | Zneg _ => NInf
  end.

Definition mul (a b : num) : num :=
  match a, b with
  | NaN, _ | _, NaN => NaN
  | Fin x, Fin y => Fin (Qred (x * y))
  | PInf, Fin y | Fin y, PInf => inf_of_sign (sgn y)
  | NInf, Fin y | Fin y, NInf => inf_of_sign (- sgn y)
  | PInf, PInf | NInf, NInf => PInf
  | PInf, NInf | NInf, PInf => NInf
  end.

Definition div (a b : num) : num :=
  match a, b with
  | NaN, _ | _, NaN => NaN
  | Fin x, Fin y =>
      if Qeq_bool y 0 then inf_of_sign (sgn x) else Fin (Qred (x / y))
  | Fin _, (PInf | NInf) => Fin 0
  | PInf, Fin y => if Qle_bool 0 y then PInf else NInf
  | NInf, Fin y => if Qle_bool 0 y then NInf else PInf
  | (PInf | NInf), (PInf | NInf) => NaN
  end.

(** [a <= b] and [a < b] of JavaScript: false as soon as one side is NaN. *)
Definition leb (a b : num) : bool :=
  match a, b with
  | NaN, _ | _, NaN => false
  | NInf, _ | _, PInf => true
  | Fin x, Fin y => Qle_bool x y
  | _, _ => false
  end.

Definition ltb (a b : num) : bool :=
  match a, b with
  | NaN, _ | _, NaN => false
  | PInf, _ | _, NInf => false
  | Fin x, Fin y => negb (Qle_bool y x)
  | _, _ => true
  end.

(** [a > b] is [b < a]. *)
Definition gtb (a b : num) : bool := ltb b a.

(** [Math.max(a, b)]: NaN when an argument is NaN, else the larger. *)
Definition max (a b : num) : num :=
  match a, b with
  | NaN, _ | _, NaN => NaN
  | _, _ => if ltb a b then b else a
  end.

Definition is_finite (a : num) : Prop :=
  match a with Fin _ => True | _ => False end.

End Num.

Declare Scope num_scope.
Delimit Scope num_scope with J.
Bind Scope num_scope with num.
Infix "+" := Num.add : num_scope.
Infix "-" := Num.sub : num_scope.
Infix "*" := Num.mul : num_scope.
Infix "/" := Num.div : num_scope.
Infix "<=?" := Num.leb : num_scope.
Infix ">?" := Num.gtb : num_scope.

(** ** Values and state objects *)

(** What a variable of the source that is meant to hold an action can hold. *)
Inductive value : Type :=
| Undefined
| Null
| Str (s : string)
| Number (n : num).

(** [v === "literal"], the comparison a [switch] makes. *)
Definition strict_eq (v : value) (lit : string) : bool :=
  match v with
  | Str s => String.eqb s lit
  | _ => false
  end.

Record FinanceState : Type := mkState {
  cash : num;
  salary : num;
  expenses : num;
  inflation : num;
  investment : num;
  happiness : num
}.

Definition set_cash (v : num) (s : FinanceState) : FinanceState :=
  mkState v (salary s) (expenses s) (inflation s) (investment s) (happiness s).
Definition set_salary (v : num) (s : FinanceState) : FinanceState :=
  mkState (cash s) v (expenses s) (inflation s) (investment s) (happiness s).
Definition set_expenses (v : num) (s : FinanceState) : FinanceState :=
  mkState (cash s) (salary s) v (inflation s) (investment s) (happiness s).
Definition set_inflation (v : num) (s : FinanceState) : FinanceState :=
  mkState (cash s) (salary s) (expenses s) v (investment s) (happiness s).
Definition set_investment (v : num) (s : FinanceState) : FinanceState :=
  mkState (cash s) (salary s) (expenses s) (inflation s) v (happiness s).
Definition set_happiness (v : num) (s : FinanceState) : FinanceState :=
  mkState (cash s) (salary s) (expenses s) (inflation s) (investment s) v.

(** [JSON.parse(JSON.stringify(x))] on a number: [JSON.stringify] prints NaN
    and the infinities as [null].  Every operator the engine applies to a
    field ([+=], [-=], [*=], [<=], [>], [Math.max]) converts [null] to 0, so
    the [null] is kept here as the 0 it is read as. *)
Definition JSON_number (x : num) : num :=
  match x with
  | Fin q => Fin q
  | _ => Fin 0
  end.

(** The deep clone of a six-field state object. *)
Definition JSON_clone (s : FinanceState) : FinanceState :=
  mkState (JSON_number (cash s)) (JSON_number (salary s))
          (JSON_number (expenses s)) (JSON_number (inflation s))
          (JSON_number (investment s)) (JSON_number (happiness s)).

Record ForecastResult : Type := mkForecast {
  survivalProbability : num;
  expectedCash : num
}.

Record MonthSnapshot : Type := mkSnapshot {
  snap_month : nat;
  snap_action : value;
  snap_cash : num;
  snap_salary : num;
  snap_expenses : num;
  snap_inflation : num;
  snap_investment : num;
  snap_happiness : num
}.

(** The argument object of [runSimulation]; an absent property is [None]. *)
Record Config : Type := mkConfig {
  months : option nat;
  monteCarloRuns : option nat;
  initialState : option positive
}.

(** The module-level object [DEFAULT_STATE] as the source initialises it. *)
Definition DEFAULT_STATE : FinanceState :=
  mkState (real 10000) (real 3000) (real 2500) (real 0.05) (real 0) (real 100).

Definition ACTIONS : list string :=
  ["WORK_MORE"; "CUT_EXPENSES"; "INVEST"; "UPS KILL"; "DO_NOTHING"]%string.

(** ** The Gaussian sampler of the source

    [randomNormal] draws two values from [Math.random] and combines them by
    the Box-Muller transform.  The random source and the transcendental
    functions are parameters; [G] is the state of the random source. *)
Section BoxMuller.
Context {G : Type}.
Variable Math_random : G -> num * G.
Variables Math_sqrt Math_log Math_cos : num -> num.
Variable Math_PI : num.

Definition randomNormal (mean std : num) (g : G) : num * G :=
  let '(u1, g1) := Math_random g in
  let '(u2, g2) := Math_random g1 in
  let z0 :=
    (Math_sqrt (real (-2) * Math_log u1)
     * Math_cos (real 2 * Math_PI * u2))%J in
  ((z0 * std + mean)%J, g2).
End BoxMuller.

(** ** The engine *)

(** What a call can throw.  [TypeError] is JavaScript's own, raised by a
    property access through something that is no object.  The other three
    are the error kinds the specification names. *)
Inductive exception : Type :=
| TypeError
| InvalidAction
| InvalidConfiguration
| MalformedState.

Section Engine.
Context {rng : Type}.
(** The sampler in use: [sample mean std g] is the value drawn and the
    next generator state.  The source uses [randomNormal]. *)
Variable sample : num -> num -> rng -> num * rng.

Record world : Type := mkWorld {
  heap : gmap positive FinanceState;
  default_state : FinanceState;
  gen : rng
}.

Inductive completion (A : Type) : Type :=
| Normal (a : A) (w : world)
| Throw (e : exception).
Arguments Normal {A} a w.
Arguments Throw {A} e.

Definition M (A : Type) : Type := world -> completion A.

Definition ret {A} (a : A) : M A := fun w => Normal a w.

Definition bind {A B} (m : M A) (k : A -> M B) : M B :=
  fun w =>
    match m w with
    | Normal a w' => k a w'
    | Throw e => Throw e
    end.

Declare Scope engine_scope.
Delimit Scope engine_scope with E.
Bind Scope engine_scope with M.
Notation "x <- m ;; k" := (bind m (fun x => k))
  (at level 20, m at level 99, k at level 200, only parsing)
  : engine_scope.
Notation "m ;; k" := (bind m (fun _ => k))
  (at level 100, k at level 200, only parsing, right associativity)
  : engine_scope.
Local Open Scope engine_scope.

Definition set_heap (h : gmap positive FinanceState) (w : world) : world :=
  mkWorld h (default_state w) (gen w).

(** [o.f] *)
Definition get (f : FinanceState -> num) (o : positive) : M num :=
  fun w =>
    match heap w !! o with
    | Some s => Normal (f s) w
    | None => Throw TypeError
    end.

(** [o.f = v] *)
Definition put (upd : num -> FinanceState -> FinanceState)
    (o : positive) (v : num) : M unit :=
  fun w =>
    match heap w !! o with
    | Some s => Normal tt (set_heap (<[o := upd v s]> (heap w)) w)
    | None => Throw TypeError
    end.

(** All the properties of [o] at once. *)
Definition load (o : positive) : M FinanceState :=
  fun w =>
    match heap w !! o with
    | Some s => Normal s w
    | None => Throw TypeError
    end.

(** A new object. *)
Definition alloc (s : FinanceState) : M positive :=
  fun w =>
    let o := fresh (dom (heap w)) in
    Normal o (set_heap (<[o := s]> (heap w)) w).

(** A call of the sampler. *)
Definition draw (mean std : num) : M num :=
  fun w =>
    let '(x, g) := sample mean std (gen w) in
    Normal x (mkWorld (heap w) (default_state w) g).

Definition updateEconomy (simState : positive) : M unit :=
  i <- get inflation simState ;;
  shock <- draw (real 0) (real 0.01) ;;
  put set_inflation simState (i + shock) ;;
  i <- get inflation simState ;;
  put set_inflation simState (Num.max i (real 0)) ;;
  e <- get expenses simState ;;
  i <- get inflation simState ;;
  put set_expenses simState (e * (real 1 + i)) ;;
  marketReturn <- draw (real 0.05) (real 0.1) ;;
  c <- get cash simState ;;
  v <- get investment simState ;;
  put set_cash simState (c + v * marketReturn) ;;
  c <- get cash simState ;;
  sal <- get salary simState ;;
  e <- get expenses simState ;;
  put set_cash simState (c + (sal - e)).

(** The [switch] has no [default] clause: a value that matches no [case]
    falls through to the end of the function. *)
Definition applyAction (simState : positive) (action : value) : M unit :=
  if strict_eq action "WORK_MORE" then
    sal <- get salary simState ;;
    put set_salary simState (sal * real 1.1) ;;
    h <- get happiness simState ;;
    put set_happiness simState (h - real 5)
  else if strict_eq action "CUT_EXPENSES" then
    e <- get expenses simState ;;
    put set_expenses simState (e * real 0.85) ;;
    h <- get happiness simState ;;
    put set_happiness simState (h - real 10)
  else if strict_eq action "INVEST" then
    c <- get cash simState ;;
    let investAmount := (c * real 0.3)%J in
    c <- get cash simState ;;
    put set_cash simState (c - investAmount) ;;
    v <- get investment simState ;;
    put set_investment simState (v + investAmount)
  else if strict_eq action "UPS KILL" then
    c <- get cash simState ;;
    put set_cash simState (c - real 1000) ;;
    sal <- get salary simState ;;
    put set_salary simState (sal * real 1.2)
  else if strict_eq action "DO_NOTHING" then
    ret tt
  else
    ret tt.

(** The inner loop of a trial, [for (m = 0; m < FORECAST_MONTHS; m++)],
    by the number of iterations left. *)
Fixpoint forecast_months (simState : positive) (left : nat) : M unit :=
  match left with
  | O => ret tt
  | S left' =>
      updateEconomy simState ;;
      c <- get cash simState ;;
      if (c <=? real 0)%J then ret tt
      else forecast_months simState left'
  end.

(** One trial, up to the test of its outcome: the cash the scratch state
    ends with. *)
Definition forecast_trial (currentState : positive) (action : value)
    (FORECAST_MONTHS : nat) : M num :=
  s <- load currentState ;;
  simState <- alloc (JSON_clone s) ;;
  applyAction simState action ;;
  forecast_months simState FORECAST_MONTHS ;;
  get cash simState.

(** The loop [for (i = 0; i < MONTE_CARLO_RUNS; i++)] with its two
    counters. *)
Fixpoint forecast_runs (currentState : positive) (action : value)
    (FORECAST_MONTHS : nat) (left : nat)
    (surviveCount : nat) (totalCash : num) : M (nat * num) :=
  match left with
  | O => ret (surviveCount, totalCash)
  | S left' =>
      c <- forecast_trial currentState action FORECAST_MONTHS ;;
      if (c >? real 0)%J then
        forecast_runs currentState action FORECAST_MONTHS left'
          (S surviveCount) (totalCash + c)%J
      else
        forecast_runs currentState action FORECAST_MONTHS left'
          surviveCount totalCash
  end.

(** [surviveCount || 1] *)
Definition or_one (surviveCount : nat) : nat :=
  match surviveCount with
  | O => 1
  | S _ => surviveCount
  end.

Definition forecast_result (MONTE_CARLO_RUNS surviveCount : nat)
    (totalCash : num) : ForecastResult :=
  mkForecast (Num.of_nat surviveCount / Num.of_nat MONTE_CARLO_RUNS)%J
             (totalCash / Num.of_nat (or_one surviveCount))%J.

Definition forecastSurvival (currentState : positive) (action : value)
    (MONTE_CARLO_RUNS FORECAST_MONTHS : nat) : M ForecastResult :=
  r <- forecast_runs currentState action FORECAST_MONTHS MONTE_CARLO_RUNS
         O (real 0) ;;
  ret (forecast_result MONTE_CARLO_RUNS (fst r) (snd r)).

Definition calculateUtility (result : ForecastResult) : num :=
  let w1 := real 0.6 in
  let w2 := real 0.4 in
  (w1 * survivalProbability result
   + w2 * (expectedCash result / real 10000))%J.

(** The horizon [forecastSurvival] takes when the caller passes none. *)
Definition FORECAST_MONTHS_default : nat := 6.

(** The loop [for (let action of actions)] with [bestAction] and
    [bestScore]. *)
Fixpoint choose_loop (currentState : positive) (monteCarloRuns : nat)
    (actions : list string) (bestAction : value) (bestScore : num)
    : M value :=
  match actions with
  | [] => ret bestAction
  | action :: actions' =>
      forecast <- forecastSurvival currentState (Str action)
                    monteCarloRuns FORECAST_MONTHS_default ;;
      let utility := calculateUtility forecast in
      if (utility >? bestScore)%J then
        choose_loop currentState monteCarloRuns actions' (Str action) utility
      else
        choose_loop currentState monteCarloRuns actions' bestAction bestScore
  end.

Definition chooseBestAction (currentState : positive)
    (monteCarloRuns : nat) : M value :=
  choose_loop currentState monteCarloRuns ACTIONS Null NInf.

Definition snapshot (month : nat) (action : value) (s : FinanceState)
    : MonthSnapshot :=
  mkSnapshot month action (cash s) (salary s) (expenses s) (inflation s)
             (investment s) (happiness s).

(** The loop [for (month = 1; month <= MONTHS_TO_SIMULATE; month++)] by
    the number of iterations left. *)
Fixpoint simulate (state : positive) (monteCarloRuns : nat)
    (month left : nat) (history : list MonthSnapshot)
    : M (list MonthSnapshot) :=
  match left with
  | O => ret history
  | S left' =>
      bestAction <- chooseBestAction state monteCarloRuns ;;
      applyAction state bestAction ;;
      updateEconomy state ;;
      s <- load state ;;
      let history := history ++ [snapshot month bestAction s] in
      c <- get cash state ;;
      if (c <=? real 0)%J then ret history
      else simulate state monteCarloRuns (S month) left' history
  end.

(** [initialState || DEFAULT_STATE], read for the clone. *)
Definition initial_template (initialState : option positive)
    : M FinanceState :=
  match initialState with
  | Some o => load o
  | None => fun w => Normal (default_state w) w
  end.

Definition runSimulation (config : Config) : M (list MonthSnapshot) :=
  let MONTHS_TO_SIMULATE := default 24%nat (months config) in
  let runs := default 100%nat (monteCarloRuns config) in
  template <- initial_template (initialState config) ;;
  state <- alloc (JSON_clone template) ;;
  simulate state runs 1 MONTHS_TO_SIMULATE [].

End Engine.

Arguments Normal {rng A} a w.
Arguments Throw {rng A} e.
Arguments mkWorld {rng} heap default_state gen.

(** ** The effect of the two leaf operations on the record they mutate

    [economy_step] and [action_effect] say what [updateEconomy] and
    [applyAction] leave in the object they are given; the lemmas
    [updateEconomy_run] and [applyAction_run] below prove that they do. *)

Definition economy_step (shock marketReturn : num) (s : FinanceState)
    : FinanceState :=
  let inflation' := Num.max (inflation s + shock)%J (real 0) in
  let expenses' := (expenses s * (real 1 + inflation'))%J in
  mkState ((cash s + investment s * marketReturn)
           + (salary s - expenses'))%J
          (salary s) expenses' inflation' (investment s) (happiness s).

Definition action_effect (action : value) (s : FinanceState) : FinanceState :=
  if strict_eq action "WORK_MORE" then
    set_happiness (happiness s - real 5)%J
      (set_salary (salary s * real 1.1)%J s)
  else if strict_eq action "CUT_EXPENSES" then
    set_happiness (happiness s - real 10)%J
      (set_expenses (expenses s * real 0.85)%J s)
  else if strict_eq action "INVEST" then
    set_investment (investment s + cash s * real 0.3)%J
      (set_cash (cash s - cash s * real 0.3)%J s)
  else if strict_eq action "UPS KILL" then
    set_salary (salary s * real 1.2)%J (set_cash (cash s - real 1000)%J s)
  else s.

(** The world in which the object at [o] holds [s] and the generator is in
    state [g], all else as in [w]. *)
Definition with_object {rng : Type} (o : positive) (s : FinanceState)
    (g : rng) (w : @world rng) : @world rng :=
  mkWorld (<[o := s]> (heap w)) (default_state w) g.

(** The utilities of the candidate actions, each from a forecast of its own,
    computed one after the other in the order of the list. *)
Fixpoint utilities {rng : Type} (sample : num -> num -> rng -> num * rng)
    (currentState : positive) (monteCarloRuns : nat) (actions : list string)
    : M (list num) :=
  match actions with
  | [] => ret []
  | action :: actions' =>
      bind (forecastSurvival sample currentState (Str action) monteCarloRuns
              FORECAST_MONTHS_default)
        (fun forecast =>
           bind (utilities sample currentState monteCarloRuns actions')
             (fun us => ret (calculateUtility forecast :: us)))
  end.

(** What the loop of [chooseBestAction] returns once the utilities are known:
    its two assignments, without the forecasts. *)
Fixpoint select (actions : list string) (us : list num)
    (bestAction : value) (bestScore : num) : value :=
  match actions, us with
  | action :: actions', utility :: us' =>
      if (utility >? bestScore)%J then select actions' us' (Str action) utility
      else select actions' us' bestAction bestScore
  | _, _ => bestAction
  end.

(** [a === b] on numbers. *)
Definition num_eqb (a b : num) : bool := Num.leb a b && Num.leb b a.

(** Samplers used to run the engine on concrete inputs: the one that returns
    its mean, and one that returns a fixed value. *)
Definition mean_sampler (mean std : num) (g : unit) : num * unit := (mean, g).
Definition constant_sampler (x : num) (mean std : num) (g : unit)
    : num * unit := (x, g).

(** Worlds used to run the engine on concrete inputs: one object, at
    location 1, holding the default state, or a state in debt. *)
Definition world0 : @world unit :=
  mkWorld {[ 1%positive := DEFAULT_STATE ]} DEFAULT_STATE tt.

Definition state_in_debt : FinanceState :=
  mkState (real (-1000)) (real 3000) (real 2500) (real 0.05) (real 0)
          (real 100).

Definition world_in_debt : @world unit :=
  mkWorld {[ 1%positive := state_in_debt ]} DEFAULT_STATE tt.

(** A rational that is not negative, or plus infinity. *)
Definition nonneg_or_inf (a : num) : Prop :=
  match a with
  | Fin q => 0 <= q
  | PInf => True
  | _ => False
  end.

(** ** Facts about numbers *)

Lemma Qle_bool_false (x y : Q) : Qle_bool x y = false <-> y < x.
Proof.
  split.
  - intros H. apply Qnot_le_lt. intros Hle.
    apply Qle_bool_iff in Hle. congruence.
  - intros H. destruct (Qle_bool x y) eqn:E; [| reflexivity].
    apply Qle_bool_iff in E. lra.
Qed.

Lemma Qeq_bool_false (x y : Q) : Qeq_bool x y = false <-> ~ x == y.
Proof.
  split.
  - intros H Heq. apply Qeq_bool_iff in Heq. congruence.
  - intros H. destruct (Qeq_bool x y) eqn:E; [| reflexivity].
    apply Qeq_bool_iff in E. contradiction.
Qed.

(** Turns the boolean comparisons of rationals in the context and the goal
    into propositions, and strips [Qred]. *)
Ltac qprop :=
  repeat match goal with
  | H : Qle_bool _ _ = true |- _ => apply Qle_bool_iff in H
  | H : Qle_bool _ _ = false |- _ => apply Qle_bool_false in H
  | H : negb _ = true |- _ => apply negb_true_iff in H
  | H : negb _ = false |- _ => apply negb_false_iff in H
  | H : context [Qred ?q] |- _ => rewrite (Qred_correct q) in H
  | |- context [Qred ?q] => rewrite (Qred_correct q)
  | |- Qle_bool _ _ = true => apply Qle_bool_iff
  | |- Qle_bool _ _ = false => apply Qle_bool_false
  | |- negb _ = true => apply negb_true_iff
  | |- negb _ = false => apply negb_false_iff
  end.

Lemma real_0 : real 0 = Fin 0.
Proof. reflexivity. Qed.

Lemma max_zero_nonneg (a : num) :
  a <> NaN -> (real 0 <=? Num.max a (real 0))%J = true.
Proof.
  intros Ha. rewrite real_0.
  destruct a as [| | x |]; try congruence; try reflexivity.
  unfold Num.max, Num.ltb.
  destruct (Qle_bool 0 x) eqn:E; simpl; [assumption | reflexivity].
Qed.

Lemma ltb_irrefl (a : num) : Num.ltb a a = false.
Proof. destruct a; simpl; try reflexivity. qprop. lra. Qed.

Lemma ltb_trans (a b c : num) :
  Num.ltb a b = true -> Num.ltb b c = true -> Num.ltb a c = true.
Proof.
  destruct a, b, c; simpl; try congruence.
  intros; qprop; lra.
Qed.

Lemma ltb_leb_trans (a b c : num) :
  Num.ltb a b = true -> Num.leb b c = true -> Num.ltb a c = true.
Proof.
  destruct a, b, c; simpl; try congruence.
  intros; qprop; lra.
Qed.

Lemma ltb_not_leb (a b : num) : Num.ltb a b = true -> Num.leb b a = false.
Proof.
  destruct a, b; simpl; try congruence.
  intros; qprop; lra.
Qed.

Lemma ltb_asym (a b : num) : Num.ltb a b = true -> Num.ltb b a = false.
Proof.
  destruct a, b; simpl; try congruence.
  intros; qprop; lra.
Qed.

Lemma probability_bounds (k n : nat) :
  (k <= n)%nat -> (0 < n)%nat ->
  (real 0 <=? Num.of_nat k / Num.of_nat n)%J = true
  /\ (Num.of_nat k / Num.of_nat n <=? real 1)%J = true.
Proof.
  intros Hkn Hn. unfold Num.div, Num.of_nat.
  assert (Hpos : 0 < inject_Z (Z.of_nat n))
    by (unfold Qlt; simpl; lia).
  destruct (Qeq_bool (inject_Z (Z.of_nat n)) 0) eqn:E.
  - apply Qeq_bool_iff in E. lra.
  - change (real 0) with (Fin 0). change (real 1) with (Fin 1).
    unfold Num.leb. split; qprop.
    + apply Qle_shift_div_l; [assumption |].
      unfold Qle; simpl; lia.
    + apply Qle_shift_div_r; [assumption |].
      unfold Qle; simpl; lia.
Qed.

(** Moving 30% of a cash that is not negative into an investment that is
    not negative does not lower the investment. *)
Lemma invest_not_lower (c v : num) :
  (real 0 <=? c)%J = true -> (real 0 <=? v)%J = true ->
  (v <=? v + c * real 0.3)%J = true /\ (real 0 <=? v + c * real 0.3)%J = true.
Proof.
  change (real 0) with (Fin 0). change (real 0.3) with (Fin (3 # 10)).
  destruct c as [| | x |], v as [| | y |]; cbn; try congruence; auto.
  intros Hx Hy. split; qprop; lra.
Qed.

(** *** Finite numbers *)

Lemma finite_div_of_nat a n :
  (0 < n)%nat -> Num.is_finite a -> Num.is_finite (a / Num.of_nat n)%J.
Proof.
  intros Hn. destruct a as [| | x |]; cbn; try tauto. intros _.
  destruct (Qeq_bool (inject_Z (Z.of_nat n)) 0) eqn:E; [| exact I].
  apply Qeq_bool_iff in E. unfold Qeq in E. simpl in E. lia.
Qed.

(** *** Sums of positive amounts *)

Lemma nonneg_or_inf_add (t c : num) :
  (c >? real 0)%J = true -> nonneg_or_inf t -> nonneg_or_inf (t + c)%J.
Proof.
  change (real 0) with (Fin 0).
  destruct t as [| | x |], c as [| | y |]; cbn; try congruence; try tauto.
  intros Hy Hx. qprop. lra.
Qed.

Lemma nonneg_or_inf_div_of_nat (t : num) (n : nat) :
  (0 < n)%nat -> nonneg_or_inf t -> nonneg_or_inf (t / Num.of_nat n)%J.
Proof.
  intros Hn.
  assert (Hpos : 0 < inject_Z (Z.of_nat n)) by (unfold Qlt; simpl; lia).
  destruct t as [| | x |]; cbn; try tauto.
  - intros Hx. destruct (Qeq_bool (inject_Z (Z.of_nat n)) 0) eqn:E.
    + apply Qeq_bool_iff in E. lra.
    + cbn. qprop. apply Qle_shift_div_l; [assumption | lra].
  - intros _. destruct (Qle_bool 0 (inject_Z (Z.of_nat n))) eqn:E; [exact I |].
    qprop. lra.
Qed.

Lemma nonneg_or_inf_div_10000 (t : num) :
  nonneg_or_inf t -> nonneg_or_inf (t / real 10000)%J.
Proof.
  change (real 10000) with (Fin 10000).
  destruct t as [| | x |]; cbn; try tauto.
  change (Qeq_bool 10000 0) with false. cbn.
  intros Hx. qprop. apply Qle_shift_div_l; lra.
Qed.

Lemma utility_above_minus_infinity n k t :
  (0 < n)%nat -> nonneg_or_inf t ->
  (calculateUtility (forecast_result n k t) >? NInf)%J = true.
Proof.
  intros Hn Ht. unfold calculateUtility, forecast_result.
  cbn [survivalProbability expectedCash].
  assert (Hk : (0 < or_one k)%nat) by (destruct k; cbn; lia).
  pose proof (finite_div_of_nat (Num.of_nat k) n Hn I) as Hp.
  pose proof (nonneg_or_inf_div_of_nat _ (or_one k) Hk Ht) as He.
  pose proof (nonneg_or_inf_div_10000 _ He) as He'.
  destruct (Num.of_nat k / Num.of_nat n)%J as [| | p |]; try contradiction.
  destruct (t / Num.of_nat (or_one k) / real 10000)%J as [| | e |];
    try contradiction.
  - reflexivity.
  - reflexivity.
Qed.

(** *** The selection rule *)

Lemma num_eqb_leb (a b : num) : num_eqb a b = true -> Num.leb b a = true.
Proof. unfold num_eqb. intros H. apply andb_true_iff in H. tauto. Qed.

(** [select] returns the incumbent when no utility beats its score, and
    otherwise the action at an index whose utility beats the score, is not
    matched or exceeded by any utility before it, and is not exceeded by any
    utility at all. *)
Lemma select_spec : forall (actions : list string) (us : list num)
    (bestAction : value) (bestScore : num),
  length us = length actions ->
  (select actions us bestAction bestScore = bestAction
   /\ forall j uj, us !! j = Some uj -> (uj >? bestScore)%J = false)
  \/ (exists i a u,
        actions !! i = Some a /\ us !! i = Some u
        /\ select actions us bestAction bestScore = Str a
        /\ (u >? bestScore)%J = true
        /\ (forall j uj, us !! j = Some uj -> (j < i)%nat ->
                         (u <=? uj)%J = false)
        /\ (forall j uj, us !! j = Some uj -> (uj >? u)%J = false)).
Proof.
  induction actions as [| a actions IH]; intros us b sc Hlen.
  - destruct us; [| discriminate]. left. split; [reflexivity |].
    intros j uj Hj. rewrite lookup_nil in Hj. discriminate.
  - destruct us as [| u us]; [discriminate |].
    injection Hlen as Hlen. cbn [select]. unfold Num.gtb in *.
    destruct (Num.ltb sc u) eqn:Hu.
    + right. destruct (IH us (Str a) u Hlen)
        as [[Hsel Hall] | (i & a' & u' & Ha & Hu' & Hsel & Hgt & Hbefore & Hmax)].
      * exists O, a, u. repeat split; auto.
        -- intros j uj Hj Hlt. lia.
        -- intros [| j] uj Hj; cbn in Hj.
           ++ injection Hj as <-. apply ltb_irrefl.
           ++ eauto.
      * exists (S i), a', u'. repeat split; auto.
        -- eauto using ltb_trans.
        -- intros [| j] uj Hj Hlt; cbn in Hj.
           ++ injection Hj as <-. apply ltb_not_leb. assumption.
           ++ apply (Hbefore j); [assumption | lia].
        -- intros [| j] uj Hj; cbn in Hj.
           ++ injection Hj as <-. apply ltb_asym. assumption.
           ++ eauto.
    + destruct (IH us b sc Hlen)
        as [[Hsel Hall] | (i & a' & u' & Ha & Hu' & Hsel & Hgt & Hbefore & Hmax)].
      * left. split; [assumption |].
        intros [| j] uj Hj; cbn in Hj.
        -- injection Hj as <-. assumption.
        -- eauto.
      * right. exists (S i), a', u'. repeat split; auto.
        -- intros [| j] uj Hj Hlt; cbn in Hj.
           ++ injection Hj as <-.
              destruct (Num.leb u' u) eqn:Hle; [| reflexivity].
              rewrite (ltb_leb_trans _ _ _ Hgt Hle) in Hu. discriminate.
           ++ apply (Hbefore j); [assumption | lia].
        -- intros [| j] uj Hj; cbn in Hj.
           ++ injection Hj as <-.
              destruct (Num.ltb u' u) eqn:Hlt; [| reflexivity].
              rewrite (ltb_trans _ _ _ Hgt Hlt) in Hu. discriminate.
           ++ eauto.
Qed.

(** ** Running the leaf operations *)

Section EngineFacts.
Context {rng : Type}.
Variable sample : num -> num -> rng -> num * rng.

Implicit Types (w : @world rng) (o : positive) (s : FinanceState).

Lemma bind_normal {A B} (m : M A) (k : A -> M B) w a w' :
  m w = Normal a w' -> bind m k w = k a w'.
Proof. intros H. unfold bind. rewrite H. reflexivity. Qed.

Lemma get_run f o w s : heap w !! o = Some s -> get f o w = Normal (f s) w.
Proof. intros H. unfold get. rewrite H. reflexivity. Qed.

Lemma load_run o w s : heap w !! o = Some s -> load o w = Normal s w.
Proof. intros H. unfold load. rewrite H. reflexivity. Qed.

Lemma with_object_lookup o s g w : heap (with_object o s g w) !! o = Some s.
Proof. simpl. apply lookup_insert_eq. Qed.

Lemma with_object_twice o s1 s2 g1 g2 w :
  with_object o s2 g2 (with_object o s1 g1 w) = with_object o s2 g2 w.
Proof. unfold with_object. simpl. rewrite insert_insert_eq. reflexivity. Qed.

Lemma with_object_same o s w :
  heap w !! o = Some s -> with_object o s (gen w) w = w.
Proof.
  intros H. destruct w as [h d g]. unfold with_object. simpl in *.
  rewrite (insert_id h o s H). reflexivity.
Qed.

(** Runs a straight-line sequence of accesses to the object that [H]
    locates, with the draws in between. *)
Ltac run_object H :=
  cbv beta iota delta [bind get put load draw ret set_heap];
  cbn [heap default_state gen fst snd];
  repeat (first
            [ rewrite H
            | rewrite lookup_insert_eq
            | match goal with
              | |- context [sample ?m ?sd ?g] =>
                  destruct (sample m sd g)
              end ];
          cbn [heap default_state gen fst snd]);
  rewrite ?insert_insert_eq.

Lemma updateEconomy_run o w s :
  heap w !! o = Some s ->
  let d1 := sample (real 0) (real 0.01) (gen w) in
  let d2 := sample (real 0.05) (real 0.1) (snd d1) in
  updateEconomy sample o w
  = Normal tt (with_object o (economy_step (fst d1) (fst d2) s) (snd d2) w).
Proof.
  intros H d1 d2. subst d2 d1.
  unfold updateEconomy. run_object H.
  destruct s; reflexivity.
Qed.

Lemma applyAction_run o w s action :
  heap w !! o = Some s ->
  applyAction o action w
  = Normal tt (with_object o (action_effect action s) (gen w) w).
Proof.
  intros H. unfold applyAction, action_effect.
  repeat match goal with
  | |- context [strict_eq action ?l] => destruct (strict_eq action l)
  end;
  run_object H; try (destruct s; reflexivity);
  rewrite (with_object_same o s w H); reflexivity.
Qed.

(** ** Rollouts

    [extends w w']: every object of [w] is in [w'] with the same fields,
    and the default template is the same. *)
Definition extends w w' : Prop :=
  heap w ⊆ heap w' /\ default_state w' = default_state w.

Lemma extends_refl w : extends w w.
Proof. split; reflexivity. Qed.

Lemma extends_trans w1 w2 w3 : extends w1 w2 -> extends w2 w3 -> extends w1 w3.
Proof.
  intros [H1 D1] [H2 D2]. split.
  - transitivity (heap w2); assumption.
  - congruence.
Qed.

Lemma extends_lookup w w' o s :
  extends w w' -> heap w !! o = Some s -> heap w' !! o = Some s.
Proof. intros [H _] Ho. exact (lookup_weaken _ _ _ _ Ho H). Qed.

Lemma extends_fresh w s g :
  extends w (with_object (fresh (dom (heap w))) s g w).
Proof.
  split; [| reflexivity]. simpl. apply insert_subseteq.
  apply not_elem_of_dom. apply is_fresh.
Qed.

Section Invariant.
(** [P] holds of the scratch state of a trial from the clone on, and [R]
    of the running sum of the surviving trials' cash. *)
Variable P : FinanceState -> Prop.
Variable R : num -> Prop.
Variable action : value.
Hypothesis P_action : forall s, P s -> P (action_effect action s).
Hypothesis P_step : forall s g1 g2,
  P s ->
  P (economy_step (fst (sample (real 0) (real 0.01) g1))
                  (fst (sample (real 0.05) (real 0.1) g2)) s).
Hypothesis R_add : forall s t,
  P s -> (cash s >? real 0)%J = true -> R t -> R (t + cash s)%J.

Lemma forecast_months_run left : forall o w s,
  heap w !! o = Some s -> P s ->
  exists s' g',
    forecast_months sample o left w = Normal tt (with_object o s' g' w)
    /\ P s'.
Proof.
  induction left as [| left IH]; intros o w s H HP.
  - exists s, (gen w). rewrite (with_object_same o s w H). auto.
  - cbn [forecast_months].
    rewrite (bind_normal _ _ _ _ _ (updateEconomy_run o w s H)).
    erewrite bind_normal by (apply get_run, with_object_lookup).
    match goal with
    | |- context [with_object o ?s1 ?g1 w] =>
        pose proof (P_step s (gen w)
                      (snd (sample (real 0) (real 0.01) (gen w))) HP) as HP1;
        destruct (cash s1 <=? real 0)%J;
        [ exists s1, g1; auto
        | destruct (IH o (with_object o s1 g1 w) s1
                      (with_object_lookup _ _ _ _) HP1)
            as (s' & g' & Hrun & HP');
          exists s', g'; rewrite Hrun, with_object_twice; auto ]
    end.
Qed.

Lemma forecast_trial_run currentState FORECAST_MONTHS w s :
  heap w !! currentState = Some s -> P (JSON_clone s) ->
  exists s' g',
    forecast_trial sample currentState action FORECAST_MONTHS w
    = Normal (cash s') (with_object (fresh (dom (heap w))) s' g' w)
    /\ P s'.
Proof.
  intros H HP. unfold forecast_trial.
  rewrite (bind_normal _ _ _ _ _ (load_run _ _ _ H)).
  set (o := fresh (dom (heap w))).
  assert (Halloc : alloc (JSON_clone s) w
                   = Normal o (with_object o (JSON_clone s) (gen w) w))
    by reflexivity.
  rewrite (bind_normal _ _ _ _ _ Halloc).
  erewrite bind_normal
    by (apply applyAction_run, with_object_lookup).
  rewrite with_object_twice.
  destruct (forecast_months_run FORECAST_MONTHS o
              (with_object o (action_effect action (JSON_clone s)) (gen w) w)
              _ (with_object_lookup _ _ _ _) (P_action _ HP))
    as (s' & g' & Hrun & HP').
  rewrite (bind_normal _ _ _ _ _ Hrun), with_object_twice.
  exists s', g'. split; [| assumption].
  apply get_run, with_object_lookup.
Qed.

Lemma forecast_runs_run currentState FORECAST_MONTHS s left :
  forall w surviveCount totalCash,
    heap w !! currentState = Some s -> P (JSON_clone s) -> R totalCash ->
    exists k t w',
      forecast_runs sample currentState action FORECAST_MONTHS left
        surviveCount totalCash w = Normal (k, t) w'
      /\ extends w w'
      /\ (surviveCount <= k <= surviveCount + left)%nat
      /\ (k = surviveCount -> t = totalCash)
      /\ R t.
Proof.
  induction left as [| left IH]; intros w k0 t0 H HP HR.
  - exists k0, t0, w.
    split; [reflexivity |]. split; [apply extends_refl |].
    split; [lia |]. split; auto.
  - cbn [forecast_runs].
    destruct (forecast_trial_run currentState FORECAST_MONTHS w s H HP)
      as (s' & g' & Hrun & HP').
    rewrite (bind_normal _ _ _ _ _ Hrun).
    set (w1 := with_object (fresh (dom (heap w))) s' g' w).
    assert (Hext : extends w w1) by apply extends_fresh.
    pose proof (extends_lookup _ _ _ _ Hext H) as H1.
    destruct (cash s' >? real 0)%J eqn:Hpos.
    + destruct (IH w1 (S k0) (t0 + cash s')%J H1 HP (R_add _ _ HP' Hpos HR))
        as (k & t & w' & Hloop & Hext' & Hk & _ & HRt).
      exists k, t, w'.
      split; [assumption |]. split; [eauto using extends_trans |].
      split; [lia |]. split; [intros; exfalso; lia | assumption].
    + destruct (IH w1 k0 t0 H1 HP HR)
        as (k & t & w' & Hloop & Hext' & Hk & Hsame & HRt).
      exists k, t, w'.
      split; [assumption |]. split; [eauto using extends_trans |].
      split; [lia |]. split; assumption.
Qed.

Lemma forecastSurvival_run currentState MONTE_CARLO_RUNS FORECAST_MONTHS
    w s :
  heap w !! currentState = Some s -> P (JSON_clone s) -> R (real 0) ->
  exists k t w',
    forecast_runs sample currentState action FORECAST_MONTHS
      MONTE_CARLO_RUNS O (real 0) w = Normal (k, t) w'
    /\ forecastSurvival sample currentState action MONTE_CARLO_RUNS
         FORECAST_MONTHS w
       = Normal (forecast_result MONTE_CARLO_RUNS k t) w'
    /\ extends w w'
    /\ (k <= MONTE_CARLO_RUNS)%nat
    /\ (k = O -> t = real 0)
    /\ R t.
Proof.
  intros H HP HR.
  destruct (forecast_runs_run currentState FORECAST_MONTHS s
              MONTE_CARLO_RUNS w O (real 0) H HP HR)
    as (k & t & w' & Hloop & Hext & Hk & Hzero & HRt).
  exists k, t, w'. unfold forecastSurvival.
  rewrite (bind_normal _ _ _ _ _ Hloop).
  split; [assumption |]. split; [reflexivity |]. split; [assumption |].
  split; [lia |]. split; assumption.
Qed.
End Invariant.

(** The invariants that hold of every state and every sum. *)
Definition any_state (s : FinanceState) : Prop := True.
Definition any_sum (t : num) : Prop := True.

Lemma forecastSurvival_returns currentState action MONTE_CARLO_RUNS
    FORECAST_MONTHS w s :
  heap w !! currentState = Some s ->
  exists k t w',
    forecast_runs sample currentState action FORECAST_MONTHS
      MONTE_CARLO_RUNS O (real 0) w = Normal (k, t) w'
    /\ forecastSurvival sample currentState action MONTE_CARLO_RUNS
         FORECAST_MONTHS w
       = Normal (forecast_result MONTE_CARLO_RUNS k t) w'
    /\ extends w w'
    /\ (k <= MONTE_CARLO_RUNS)%nat
    /\ (k = O -> t = real 0).
Proof.
  intros H.
  destruct (forecastSurvival_run any_state any_sum action
              (fun _ _ => I) (fun _ _ _ _ => I) (fun _ _ _ _ _ => I)
              currentState MONTE_CARLO_RUNS FORECAST_MONTHS w s H I I)
    as (k & t & w' & Hloop & Hrun & Hext & Hk & Hzero & _).
  exists k, t, w'. auto.
Qed.

(** ** Two trials do not see each other *)

Lemma forecast_months_same left : forall o1 o2 w1 w2 s,
  heap w1 !! o1 = Some s -> heap w2 !! o2 = Some s -> gen w1 = gen w2 ->
  exists s' g',
    forecast_months sample o1 left w1 = Normal tt (with_object o1 s' g' w1)
    /\ forecast_months sample o2 left w2 = Normal tt (with_object o2 s' g' w2).
Proof.
  induction left as [| left IH]; intros o1 o2 w1 w2 s H1 H2 Hg.
  - exists s, (gen w1). cbn [forecast_months]. unfold ret.
    rewrite (with_object_same o1 s w1 H1).
    rewrite Hg, (with_object_same o2 s w2 H2). auto.
  - cbn [forecast_months].
    rewrite (bind_normal _ _ _ _ _ (updateEconomy_run o1 w1 s H1)).
    rewrite (bind_normal _ _ _ _ _ (updateEconomy_run o2 w2 s H2)).
    rewrite <- Hg.
    erewrite !bind_normal by (apply get_run, with_object_lookup).
    match goal with
    | |- context [with_object o1 ?s1 ?g1 w1] =>
        destruct (cash s1 <=? real 0)%J;
        [ exists s1, g1; auto
        | destruct (IH o1 o2 (with_object o1 s1 g1 w1)
                      (with_object o2 s1 g1 w2) s1
                      (with_object_lookup _ _ _ _)
                      (with_object_lookup _ _ _ _) eq_refl)
            as (s' & g' & Hr1 & Hr2);
          exists s', g'; rewrite Hr1, Hr2, !with_object_twice; auto ]
    end.
Qed.

Lemma forecast_trial_same currentState action FORECAST_MONTHS w1 w2 s :
  heap w1 !! currentState = Some s -> heap w2 !! currentState = Some s ->
  gen w1 = gen w2 ->
  exists s' g',
    forecast_trial sample currentState action FORECAST_MONTHS w1
    = Normal (cash s') (with_object (fresh (dom (heap w1))) s' g' w1)
    /\ forecast_trial sample currentState action FORECAST_MONTHS w2
       = Normal (cash s') (with_object (fresh (dom (heap w2))) s' g' w2).
Proof.
  intros H1 H2 Hg. unfold forecast_trial.
  rewrite (bind_normal _ _ _ _ _ (load_run _ _ _ H1)).
  rewrite (bind_normal _ _ _ _ _ (load_run _ _ _ H2)).
  set (o1 := fresh (dom (heap w1))). set (o2 := fresh (dom (heap w2))).
  assert (Ha1 : alloc (JSON_clone s) w1
                = Normal o1 (with_object o1 (JSON_clone s) (gen w1) w1))
    by reflexivity.
  assert (Ha2 : alloc (JSON_clone s) w2
                = Normal o2 (with_object o2 (JSON_clone s) (gen w2) w2))
    by reflexivity.
  rewrite (bind_normal _ _ _ _ _ Ha1), (bind_normal _ _ _ _ _ Ha2).
  rewrite (bind_normal _ _ _ _ _
             (applyAction_run o1 _ _ action (with_object_lookup _ _ _ _))).
  rewrite (bind_normal _ _ _ _ _
             (applyAction_run o2 _ _ action (with_object_lookup _ _ _ _))).
  rewrite !with_object_twice. cbn [gen with_object].
  fold (with_object o1 (action_effect action (JSON_clone s)) (gen w1) w1).
  fold (with_object o2 (action_effect action (JSON_clone s)) (gen w2) w2).
  destruct (forecast_months_same FORECAST_MONTHS o1 o2
              (with_object o1 (action_effect action (JSON_clone s)) (gen w1) w1)
              (with_object o2 (action_effect action (JSON_clone s)) (gen w2) w2)
              _ (with_object_lookup _ _ _ _) (with_object_lookup _ _ _ _) Hg)
    as (s' & g' & Hr1 & Hr2).
  rewrite (bind_normal _ _ _ _ _ Hr1), (bind_normal _ _ _ _ _ Hr2).
  rewrite !with_object_twice.
  exists s', g'. split; apply get_run, with_object_lookup.
Qed.

(** ** The action applicator on a value that matches no case *)

(** C1 (as amended): for every action value that is none of the five
    strings of [ACTIONS], [applyAction] raises no error; it returns
    normally and leaves every object, the state included, as it was. *)
Theorem applyAction_unknown_is_noop o (action : value) w :
  existsb (strict_eq action) ACTIONS = false ->
  applyAction o action w = Normal tt w.
Proof.
  intros H. cbn [existsb ACTIONS] in H.
  repeat (apply orb_false_iff in H; destruct H as [? H]).
  unfold applyAction.
  repeat match goal with
         | E : strict_eq action _ = false |- _ => rewrite E; clear E
         end.
  reflexivity.
Qed.

(** ** The forecaster *)

(** C2 (as amended): [forecastSurvival] with zero runs raises no error; it
    runs no trial, touches no object, and returns the result whose
    survival probability is NaN (0/0) and whose expected cash is 0. *)
Theorem forecast_zero_runs currentState action FORECAST_MONTHS w :
  forecastSurvival sample currentState action 0 FORECAST_MONTHS w
  = Normal (mkForecast NaN (real 0)) w.
Proof. reflexivity. Qed.

(** C8: a forecast returns with the caller's state object, every other
    object that existed and the default template exactly as they were.
    A trial writes to one new object only, and what it computes depends
    on the fields of the input state and on the generator alone: in any
    two heaps that hold the same input state, whatever else they hold,
    it ends in the same scratch state. *)
Theorem forecast_leaves_input_unchanged currentState action
    MONTE_CARLO_RUNS FORECAST_MONTHS w s :
  heap w !! currentState = Some s ->
  (exists r w',
      forecastSurvival sample currentState action MONTE_CARLO_RUNS
        FORECAST_MONTHS w = Normal r w'
      /\ heap w' !! currentState = Some s
      /\ (forall o s0, heap w !! o = Some s0 -> heap w' !! o = Some s0)
      /\ default_state w' = default_state w)
  /\ (forall w1,
        heap w1 !! currentState = Some s ->
        (fresh (dom (heap w1)) ∉ dom (heap w1))
        /\ exists s' g',
            forecast_trial sample currentState action FORECAST_MONTHS w1
            = Normal (cash s')
                (with_object (fresh (dom (heap w1))) s' g' w1)
            /\ forall w2,
                heap w2 !! currentState = Some s -> gen w2 = gen w1 ->
                forecast_trial sample currentState action FORECAST_MONTHS w2
                = Normal (cash s')
                    (with_object (fresh (dom (heap w2))) s' g' w2)).
Proof.
  intros H. split.
  - destruct (forecastSurvival_returns currentState action MONTE_CARLO_RUNS
                FORECAST_MONTHS w s H)
      as (k & t & w' & _ & Hrun & Hext & _).
    exists (forecast_result MONTE_CARLO_RUNS k t), w'.
    split; [assumption |]. split; [eauto using extends_lookup |].
    split; [eauto using extends_lookup | apply Hext].
  - intros w1 H1. split; [apply is_fresh |].
    destruct (forecast_trial_same currentState action FORECAST_MONTHS
                w1 w1 s H1 H1 eq_refl) as (s' & g' & Hrun & _).
    exists s', g'. split; [assumption |].
    intros w2 H2 Hg.
    destruct (forecast_trial_same currentState action FORECAST_MONTHS
                w1 w2 s H1 H2 (eq_sym Hg)) as (s2 & g2 & Hrun1 & Hrun2).
    rewrite Hrun in Hrun1. injection Hrun1 as Hc Hw Hgen.
    pose proof (f_equal (fun h => h !! fresh (dom (heap w1))) Hw) as Hs.
    cbn beta in Hs. rewrite !lookup_insert_eq in Hs.
    injection Hs as ->. subst g2.
    assumption.
Qed.

(** ** The economy step *)

(** C4: when the inflation entering the call is a real number and the
    shock drawn is a number, [updateEconomy] returns and leaves as inflation
    the larger of 0 and the old inflation plus the shock, which is not
    negative; the expenses it leaves are the old expenses times one plus
    that same final inflation. *)
Theorem updateEconomy_inflation o w s q :
  heap w !! o = Some s ->
  inflation s = Fin q ->
  fst (sample (real 0) (real 0.01) (gen w)) <> NaN ->
  exists s' w',
    updateEconomy sample o w = Normal tt w'
    /\ heap w' !! o = Some s'
    /\ inflation s'
       = Num.max (inflation s + fst (sample (real 0) (real 0.01) (gen w)))%J
                 (real 0)
    /\ (real 0 <=? inflation s')%J = true
    /\ expenses s' = (expenses s * (real 1 + inflation s'))%J.
Proof.
  intros H Hq Hshock.
  eexists _, _. split; [exact (updateEconomy_run o w s H) |].
  split; [apply with_object_lookup |].
  cbn [economy_step inflation expenses]. split; [reflexivity |].
  split; [| reflexivity].
  apply max_zero_nonneg. rewrite Hq.
  destruct (fst (sample (real 0) (real 0.01) (gen w)));
    cbn; congruence.
Qed.

(** C9 (as amended): [applyAction] changes the investment only when the
    action is INVEST, and then adds 30% of the cash to it; when the cash
    and the investment are not negative, the investment it leaves is not
    lower and not negative.  [updateEconomy] does not change the
    investment. *)
Theorem investment_moved_only_by_INVEST o w s (action : value) :
  heap w !! o = Some s ->
  (exists s' w',
      applyAction o action w = Normal tt w'
      /\ heap w' !! o = Some s'
      /\ (strict_eq action "INVEST" = false -> investment s' = investment s)
      /\ (strict_eq action "INVEST" = true ->
          investment s' = (investment s + cash s * real 0.3)%J)
      /\ ((real 0 <=? cash s)%J = true ->
          (real 0 <=? investment s)%J = true ->
          (investment s <=? investment s')%J = true
          /\ (real 0 <=? investment s')%J = true))
  /\ (exists s' w',
        updateEconomy sample o w = Normal tt w'
        /\ heap w' !! o = Some s'
        /\ investment s' = investment s).
Proof.
  intros H. split.
  - eexists _, _. split; [exact (applyAction_run o w s action H) |].
    split; [apply with_object_lookup |].
    assert (Hinv : investment (action_effect action s)
                   = if strict_eq action "INVEST"
                     then (investment s + cash s * real 0.3)%J
                     else investment s).
    { unfold action_effect. destruct action as [| | a |]; try reflexivity.
      cbn [strict_eq].
      destruct (String.eqb a "INVEST") eqn:E.
      - apply String.eqb_eq in E. subst a. reflexivity.
      - destruct (String.eqb a "WORK_MORE"), (String.eqb a "CUT_EXPENSES"),
          (String.eqb a "UPS KILL"); reflexivity. }
    rewrite Hinv.
    split; [intros ->; reflexivity |].
    split; [intros ->; reflexivity |].
    intros Hc Hv. destruct (strict_eq action "INVEST").
    + apply invest_not_lower; assumption.
    + split; [| assumption].
      destruct (investment s) as [| | y |]; try discriminate; try reflexivity.
      cbn. qprop. lra.
  - eexists _, _. split; [exact (updateEconomy_run o w s H) |].
    split; [apply with_object_lookup | reflexivity].
Qed.

(** ** The selector *)

Section Candidates.
(** [U] holds of the utility of every forecast made for the state [s]
    held at [currentState]. *)
Variable U : num -> Prop.
Variable currentState : positive.
Variable monteCarloRuns : nat.
Variable s : FinanceState.
Hypothesis forecast_U : forall a w,
  heap w !! currentState = Some s ->
  exists r w',
    forecastSurvival sample currentState (Str a) monteCarloRuns
      FORECAST_MONTHS_default w = Normal r w'
    /\ extends w w'
    /\ U (calculateUtility r).

Lemma utilities_run actions : forall w,
  heap w !! currentState = Some s ->
  exists us w',
    utilities sample currentState monteCarloRuns actions w = Normal us w'
    /\ extends w w'
    /\ length us = length actions
    /\ Forall U us
    /\ forall bestAction bestScore,
        choose_loop sample currentState monteCarloRuns actions
          bestAction bestScore w
        = Normal (select actions us bestAction bestScore) w'.
Proof.
  induction actions as [| a actions IH]; intros w H.
  - exists [], w. split; [reflexivity |]. split; [apply extends_refl |].
    split; [reflexivity |]. split; [constructor | reflexivity].
  - destruct (forecast_U a w H) as (r & w1 & Hf & Hext1 & HU).
    destruct (IH w1 (extends_lookup _ _ _ _ Hext1 H))
      as (us & w' & Hus & Hext & Hlen & HUs & Hloop).
    exists (calculateUtility r :: us), w'.
    split.
    { cbn [utilities]. rewrite (bind_normal _ _ _ _ _ Hf).
      rewrite (bind_normal _ _ _ _ _ Hus). reflexivity. }
    split; [eauto using extends_trans |].
    split; [cbn; congruence |].
    split; [constructor; assumption |].
    intros b sc. cbn [choose_loop select].
    rewrite (bind_normal _ _ _ _ _ Hf). cbv zeta.
    destruct (calculateUtility r >? sc)%J; apply Hloop.
Qed.
End Candidates.

Lemma forecast_any_utility currentState monteCarloRuns s a w :
  heap w !! currentState = Some s ->
  exists r w',
    forecastSurvival sample currentState (Str a) monteCarloRuns
      FORECAST_MONTHS_default w = Normal r w'
    /\ extends w w'
    /\ any_sum (calculateUtility r).
Proof.
  intros H.
  destruct (forecastSurvival_returns currentState (Str a) monteCarloRuns
              FORECAST_MONTHS_default w s H)
    as (k & t & w' & _ & Hrun & Hext & _).
  eexists _, w'. split; [exact Hrun |]. split; [assumption | exact I].
Qed.

Lemma forecast_utility_above currentState monteCarloRuns s a w :
  (0 < monteCarloRuns)%nat ->
  heap w !! currentState = Some s ->
  exists r w',
    forecastSurvival sample currentState (Str a) monteCarloRuns
      FORECAST_MONTHS_default w = Normal r w'
    /\ extends w w'
    /\ (calculateUtility r >? NInf)%J = true.
Proof.
  intros Hruns H.
  destruct (forecastSurvival_run any_state nonneg_or_inf (Str a)
              (fun _ _ => I) (fun _ _ _ _ => I)
              (fun s t _ Hc Ht => nonneg_or_inf_add t (cash s) Hc Ht)
              currentState monteCarloRuns FORECAST_MONTHS_default w s H I
              (Qle_refl 0))
    as (k & t & w' & _ & Hrun & Hext & _ & _ & Ht).
  eexists _, w'. split; [exact Hrun |]. split; [assumption |].
  apply utility_above_minus_infinity; assumption.
Qed.

(** C6: [chooseBestAction] returns, and the forecasts it makes are those
    of [utilities] on [ACTIONS], one per action in the order WORK_MORE,
    CUT_EXPENSES, INVEST, UPS KILL, DO_NOTHING, leaving the same final
    world.  When an action is returned, no action before it has a utility
    that matches or exceeds its own, and no action at all has a greater
    one; so an action whose utility equals the chosen one's comes after
    it. *)
Theorem chooseBestAction_tie_break currentState monteCarloRuns w s :
  heap w !! currentState = Some s ->
  exists us best w',
    ACTIONS
    = ["WORK_MORE"; "CUT_EXPENSES"; "INVEST"; "UPS KILL"; "DO_NOTHING"]%string
    /\ utilities sample currentState monteCarloRuns ACTIONS w = Normal us w'
    /\ chooseBestAction sample currentState monteCarloRuns w = Normal best w'
    /\ length us = length ACTIONS
    /\ ((best = Null
         /\ forall j uj, us !! j = Some uj -> (uj >? NInf)%J = false)
        \/ exists i a u,
             ACTIONS !! i = Some a /\ us !! i = Some u /\ best = Str a
             /\ (forall j uj, us !! j = Some uj -> (j < i)%nat ->
                              (u <=? uj)%J = false)
             /\ (forall j uj, us !! j = Some uj -> (uj >? u)%J = false)
             /\ (forall j uj, us !! j = Some uj -> num_eqb uj u = true ->
                              (i <= j)%nat)).
Proof.
  intros H.
  destruct (utilities_run any_sum currentState monteCarloRuns s
              (forecast_any_utility currentState monteCarloRuns s)
              ACTIONS w H)
    as (us & w' & Hus & _ & Hlen & _ & Hloop).
  exists us, (select ACTIONS us Null NInf), w'.
  split; [reflexivity |].
  split; [assumption |]. split; [apply Hloop |]. split; [assumption |].
  destruct (select_spec ACTIONS us Null NInf Hlen)
    as [[Hsel Hall] | (i & a & u & Ha & Hu & Hsel & _ & Hbefore & Hmax)].
  - left. auto.
  - right. exists i, a, u.
    split; [assumption |]. split; [assumption |]. split; [assumption |].
    split; [assumption |]. split; [assumption |].
    intros j uj Hj Heq. destruct (le_lt_dec i j) as [| Hlt]; [assumption |].
    pose proof (Hbefore j uj Hj Hlt) as Hnot.
    rewrite (num_eqb_leb _ _ Heq) in Hnot. discriminate.
Qed.

(** ** The driver *)

Lemma chooseBestAction_returns currentState monteCarloRuns w s :
  heap w !! currentState = Some s ->
  exists best w',
    chooseBestAction sample currentState monteCarloRuns w = Normal best w'
    /\ extends w w'.
Proof.
  intros H.
  destruct (utilities_run any_sum currentState monteCarloRuns s
              (forecast_any_utility currentState monteCarloRuns s)
              ACTIONS w H)
    as (us & w' & _ & Hext & _ & _ & Hloop).
  exists (select ACTIONS us Null NInf), w'. split; [apply Hloop | assumption].
Qed.

Lemma simulate_run state monteCarloRuns left :
  forall month history w s,
    heap w !! state = Some s ->
    exists tail w',
      simulate sample state monteCarloRuns month left history w
      = Normal (history ++ tail) w'
      /\ (length tail <= left)%nat
      /\ forall i snap,
          tail !! i = Some snap ->
          (snap_cash snap <=? real 0)%J = true ->
          S i = length tail.
Proof.
  induction left as [| left IH]; intros month history w s H.
  - exists [], w. rewrite app_nil_r.
    split; [reflexivity |]. split; [cbn; lia |].
    intros i snap Hi. rewrite lookup_nil in Hi. discriminate.
  - cbn [simulate].
    destruct (chooseBestAction_returns state monteCarloRuns w s H)
      as (best & w1 & Hbest & Hext).
    rewrite (bind_normal _ _ _ _ _ Hbest).
    pose proof (extends_lookup _ _ _ _ Hext H) as H1.
    rewrite (bind_normal _ _ _ _ _ (applyAction_run state w1 s best H1)).
    erewrite bind_normal
      by (apply updateEconomy_run, with_object_lookup).
    rewrite with_object_twice.
    erewrite bind_normal by (apply load_run, with_object_lookup).
    erewrite bind_normal by (apply get_run, with_object_lookup).
    match goal with
    | |- context [snapshot month best ?s2] => set (s' := s2)
    end.
    match goal with
    | |- context [with_object state s' ?g2 w1] =>
        set (w2 := with_object state s' g2 w1)
    end.
    destruct (cash s' <=? real 0)%J eqn:Hcash.
    + exists [snapshot month best s'], w2.
      split; [reflexivity |]. split; [cbn; lia |].
      intros [| [| i]] snap Hi Hle; [reflexivity | discriminate ..].
    + destruct (IH (S month) (history ++ [snapshot month best s']) w2 s'
                  (with_object_lookup _ _ _ _))
        as (tail & w' & Hrun & Hlen & Hlast).
      exists (snapshot month best s' :: tail), w'.
      split; [rewrite Hrun, <- app_assoc; reflexivity |].
      split; [cbn; lia |].
      intros [| i] snap Hi Hle; cbn in Hi.
      * injection Hi as <-. cbn [snapshot snap_cash] in Hle.
        rewrite Hcash in Hle. discriminate.
      * cbn [length]. f_equal. eauto.
Qed.

(** C5: when the initial state, if the configuration names one, is an
    object of the heap, [runSimulation] returns a history of at most
    [months] snapshots (24 when the configuration gives none), and a
    snapshot whose cash is zero or less is the last one. *)
Theorem runSimulation_history config w :
  match initialState config with
  | Some o => heap w !! o <> None
  | None => True
  end ->
  exists history w',
    runSimulation sample config w = Normal history w'
    /\ (length history <= default 24%nat (months config))%nat
    /\ forall i snap,
        history !! i = Some snap ->
        (snap_cash snap <=? real 0)%J = true ->
        S i = length history.
Proof.
  intros Hinit. unfold runSimulation.
  assert (Htemplate : exists template,
             initial_template (initialState config) w = Normal template w).
  { destruct (initialState config) as [o |]; cbn [initial_template].
    - destruct (heap w !! o) as [s0 |] eqn:Ho; [| contradiction].
      exists s0. apply load_run. assumption.
    - eexists. reflexivity. }
  destruct Htemplate as [template Htemplate].
  rewrite (bind_normal _ _ _ _ _ Htemplate).
  set (state := fresh (dom (heap w))).
  assert (Halloc : alloc (JSON_clone template) w
                   = Normal state
                       (with_object state (JSON_clone template) (gen w) w))
    by reflexivity.
  rewrite (bind_normal _ _ _ _ _ Halloc).
  destruct (simulate_run state (default 100%nat (monteCarloRuns config))
              (default 24%nat (months config)) 1 []
              (with_object state (JSON_clone template) (gen w) w)
              (JSON_clone template) (with_object_lookup _ _ _ _))
    as (tail & w' & Hrun & Hlen & Hlast).
  exists tail, w'. auto.
Qed.

End EngineFacts.

(** ** Scenarios on concrete inputs *)

(** C7: with the sampler that returns its mean, one [updateEconomy] on a
    state with inflation 0.05, expenses 2500, cash 10000, salary 3000 and
    investment 0 leaves inflation 0.05, expenses 2625 and cash 10375, the
    other fields as they were. *)
Theorem scenario_C_mean_sampler (o : positive) (w : @world unit) (h : num) :
  heap w !! o
  = Some (mkState (real 10000) (real 3000) (real 2500) (real 0.05) (real 0) h) ->
  exists w',
    updateEconomy mean_sampler o w = Normal tt w'
    /\ heap w' !! o
       = Some (mkState (real 10375) (real 3000) (real 2625) (real 0.05)
                       (real 0) h).
Proof.
  intros H. eexists. split; [exact (updateEconomy_run mean_sampler o w _ H) |].
  rewrite with_object_lookup. reflexivity.
Qed.

Lemma scenario_C_mean_sampler_witness :
  exists w',
    updateEconomy mean_sampler 1%positive world0 = Normal tt w'
    /\ heap w' !! 1%positive
       = Some (mkState (real 10375) (real 3000) (real 2625) (real 0.05)
                       (real 0) (real 100)).
Proof.
  apply (scenario_C_mean_sampler 1%positive world0 (real 100)). reflexivity.
Defined.

(** C1, as stated, fails: on the unknown action "RETIRE" [applyAction]
    returns normally with the world unchanged; it does not throw
    InvalidAction. *)
Lemma applyAction_unknown_counterexample :
  applyAction 1%positive (Str "RETIRE") world0 = Normal tt world0
  /\ applyAction 1%positive (Str "RETIRE") world0 <> Throw InvalidAction.
Proof. split; [reflexivity | discriminate]. Qed.

Lemma applyAction_unknown_is_noop_witness :
  existsb (strict_eq (Str "RETIRE")) ACTIONS = false
  /\ applyAction 1%positive (Str "RETIRE") world0 = Normal tt world0.
Proof.
  split; [reflexivity |].
  apply (applyAction_unknown_is_noop 1%positive (Str "RETIRE") world0).
  reflexivity.
Defined.

(** C2, as stated, fails: with zero runs [forecastSurvival] returns a
    result, with a survival probability that is NaN; it does not throw
    InvalidConfiguration. *)
Lemma forecast_zero_runs_counterexample :
  forecastSurvival mean_sampler 1%positive (Str "INVEST") 0 6 world0
  = Normal (mkForecast NaN (real 0)) world0
  /\ forecastSurvival mean_sampler 1%positive (Str "INVEST") 0 6 world0
     <> Throw InvalidConfiguration.
Proof. split; [reflexivity | discriminate]. Qed.

(** C9, as stated, fails: INVEST on a state whose cash is -1000 and whose
    investment is 0 moves -300 into the investment, which is then lower
    than before and negative. *)
Lemma INVEST_in_debt_counterexample :
  investment state_in_debt = real 0
  /\ applyAction 1%positive (Str "INVEST") world_in_debt
     = Normal tt
         (with_object 1%positive
            (mkState (real (-700)) (real 3000) (real 2500) (real 0.05)
                     (real (-300)) (real 100))
            tt world_in_debt)
  /\ Num.ltb (real (-300)) (investment state_in_debt) = true
  /\ (real 0 <=? real (-300))%J = false.
Proof.
  split; [reflexivity |].
  split; [| split; reflexivity].
  exact (applyAction_run 1%positive world_in_debt state_in_debt
           (Str "INVEST") eq_refl).
Qed.

(** ** The theorems at concrete inputs *)

Lemma forecast_leaves_input_unchanged_witness :
  exists r w',
    forecastSurvival mean_sampler 1%positive (Str "INVEST") 2 6 world0
    = Normal r w'
    /\ heap w' !! 1%positive = Some DEFAULT_STATE.
Proof.
  destruct (forecast_leaves_input_unchanged mean_sampler 1%positive
              (Str "INVEST") 2 6 world0 DEFAULT_STATE eq_refl)
    as [(r & w' & Hrun & Hsame & _) _].
  exists r, w'. split; assumption.
Defined.

Lemma updateEconomy_inflation_witness :
  exists s' w',
    updateEconomy (constant_sampler (real (-1))) 1%positive world0
    = Normal tt w'
    /\ heap w' !! 1%positive = Some s'
    /\ inflation s'
       = Num.max (inflation DEFAULT_STATE
                  + fst (constant_sampler (real (-1)) (real 0) (real 0.01)
                           (gen world0)))%J
                 (real 0)
    /\ (real 0 <=? inflation s')%J = true
    /\ expenses s' = (expenses DEFAULT_STATE * (real 1 + inflation s'))%J.
Proof.
  apply (updateEconomy_inflation (constant_sampler (real (-1))) 1%positive
           world0 DEFAULT_STATE (1 # 20));
    [reflexivity | reflexivity | discriminate].
Defined.

Lemma investment_moved_only_by_INVEST_witness :
  exists s' w',
    applyAction 1%positive (Str "INVEST") world0 = Normal tt w'
    /\ heap w' !! 1%positive = Some s'
    /\ investment s' = real 3000.
Proof.
  destruct (investment_moved_only_by_INVEST mean_sampler 1%positive world0
              DEFAULT_STATE (Str "INVEST") eq_refl)
    as [(s' & w' & Hrun & Hs' & _ & Hinvest & _) _].
  exists s', w'. split; [assumption |]. split; [assumption |].
  rewrite (Hinvest eq_refl). reflexivity.
Defined.

Lemma chooseBestAction_tie_break_witness :
  exists us best w',
    utilities mean_sampler 1%positive 1 ACTIONS world0 = Normal us w'
    /\ chooseBestAction mean_sampler 1%positive 1 world0 = Normal best w'.
Proof.
  destruct (chooseBestAction_tie_break mean_sampler 1%positive 1 world0
              DEFAULT_STATE eq_refl)
    as (us & best & w' & _ & Hus & Hbest & _).
  exists us, best, w'. split; assumption.
Defined.

Lemma runSimulation_history_witness :
  heap world0 !! 1%positive <> None
  /\ exists history w',
      runSimulation mean_sampler
        (mkConfig (Some 3%nat) (Some 1%nat) (Some 1%positive)) world0
      = Normal history w'
      /\ (length history <= 3)%nat
      /\ forall i snap,
          history !! i = Some snap ->
          (snap_cash snap <=? real 0)%J = true ->
          S i = length history.
Proof.
  assert (H : heap world0 !! 1%positive <> None) by discriminate.
  split; [assumption |].
  exact (runSimulation_history mean_sampler
           (mkConfig (Some 3%nat) (Some 1%nat) (Some 1%positive)) world0 H).
Defined.

(** * Further properties of the engine *)

(** ** The leaf operations *)

Section LeafFacts.
Context {rng : Type}.
Variable sample : num -> num -> rng -> num * rng.

Implicit Types (w : @world rng) (o : positive) (s : FinanceState).



(** X2: when the expenses entering the call are a rational that is not
    negative, the inflation is a rational and the shock drawn is a
    rational, the expenses [updateEconomy] leaves are not lower than
    before. *)
Theorem updateEconomy_expenses_grow o w s :
  heap w !! o = Some s ->
  Num.is_finite (expenses s) ->
  (real 0 <=? expenses s)%J = true ->
  Num.is_finite (inflation s) ->
  Num.is_finite (fst (sample (real 0) (real 0.01) (gen w))) ->
  exists s' w',
    updateEconomy sample o w = Normal tt w'
    /\ heap w' !! o = Some s'
    /\ (expenses s <=? expenses s')%J = true.
Proof.
  intros H He Hpos Hi Hx. eexists _, _.
  split; [exact (updateEconomy_run sample o w s H) |].
  split; [apply with_object_lookup |].
  cbn [economy_step expenses].
  destruct (expenses s) as [| | e |]; try contradiction.
  destruct (inflation s) as [| | i |]; try contradiction.
  destruct (fst (sample (real 0) (real 0.01) (gen w))) as [| | x |];
    try contradiction.
  change (real 0) with (Fin 0) in *. change (real 1) with (Fin 1).
  cbn in Hpos. cbn.
  destruct (Qle_bool 0 (Qred (i + x))) eqn:E; cbn; qprop.
  - assert (0 <= e * (i + x)) by (apply Qmult_le_0_compat; lra). lra.
  - lra.
Qed.


(** X4: no action lowers a salary that is not negative, and no action
    raises the happiness. *)
Theorem applyAction_salary_happiness o w s (action : value) :
  heap w !! o = Some s ->
  exists s' w',
    applyAction o action w = Normal tt w'
    /\ heap w' !! o = Some s'
    /\ ((real 0 <=? salary s)%J = true -> (salary s <=? salary s')%J = true)
    /\ (happiness s <> NaN -> (happiness s' <=? happiness s)%J = true).
Proof.
  intros H. eexists _, _.
  split; [exact (applyAction_run o w s action H) |].
  split; [apply with_object_lookup |].
  change (real 0) with (Fin 0).
  unfold action_effect.
  repeat match goal with
         | |- context [strict_eq action ?l] => destruct (strict_eq action l)
         end;
    cbn [salary happiness set_salary set_happiness set_cash set_expenses
         set_investment];
    (split;
     [ destruct (salary s) as [| | x |]; cbn; try congruence; try reflexivity;
       intros Hx; qprop; lra
     | destruct (happiness s) as [| | h |]; cbn; try congruence;
       try reflexivity; intros _; qprop; lra ]).
Qed.

(** X5: on something that is no object, [updateEconomy] throws a TypeError
    (before it draws anything), and so does [applyAction] with WORK_MORE,
    CUT_EXPENSES, INVEST or UPS KILL; with DO_NOTHING or a value that
    matches no case [applyAction] returns normally even then. *)
Theorem no_object_TypeError o w (action : value) :
  heap w !! o = None ->
  updateEconomy sample o w = Throw TypeError
  /\ applyAction o action w
     = if existsb (strict_eq action)
            ["WORK_MORE"; "CUT_EXPENSES"; "INVEST"; "UPS KILL"]%string
       then Throw TypeError
       else Normal tt w.
Proof.
  intros H. split.
  - unfold updateEconomy, bind, get. rewrite H. reflexivity.
  - unfold applyAction. cbn [existsb].
    destruct (strict_eq action "WORK_MORE");
      [unfold bind, get; rewrite H; reflexivity |].
    destruct (strict_eq action "CUT_EXPENSES");
      [unfold bind, get; rewrite H; reflexivity |].
    destruct (strict_eq action "INVEST");
      [unfold bind, get; rewrite H; reflexivity |].
    destruct (strict_eq action "UPS KILL");
      [unfold bind, get; rewrite H; reflexivity |].
    destruct (strict_eq action "DO_NOTHING"); reflexivity.
Qed.

End LeafFacts.

(** ** The forecaster and the selector *)

Lemma nonneg_or_inf_leb (a : num) :
  nonneg_or_inf a -> (real 0 <=? a)%J = true.
Proof.
  change (real 0) with (Fin 0).
  destruct a as [| | x |]; cbn; try contradiction; auto.
  intros Hx. qprop. assumption.
Qed.

Lemma of_nat_div_self (n : nat) :
  (0 < n)%nat -> (Num.of_nat n / Num.of_nat n)%J = real 1.
Proof.
  intros Hn. unfold Num.div, Num.of_nat, real.
  assert (Hpos : 0 < inject_Z (Z.of_nat n)) by (unfold Qlt; simpl; lia).
  destruct (Qeq_bool (inject_Z (Z.of_nat n)) 0) eqn:E.
  - apply Qeq_bool_iff in E. lra.
  - f_equal. apply Qred_complete. field; lra.
Qed.

Lemma zero_div_of_nat (n : nat) :
  (0 < n)%nat -> (Num.of_nat 0 / Num.of_nat n)%J = real 0.
Proof.
  intros Hn. unfold Num.div, Num.of_nat, real.
  assert (Hpos : 0 < inject_Z (Z.of_nat n)) by (unfold Qlt; simpl; lia).
  destruct (Qeq_bool (inject_Z (Z.of_nat n)) 0) eqn:E.
  - apply Qeq_bool_iff in E. lra.
  - reflexivity.
Qed.

Section ForecastFacts.
Context {rng : Type}.
Variable sample : num -> num -> rng -> num * rng.

Implicit Types (w : @world rng) (o : positive) (s : FinanceState).

(** A trial with no month to simulate: the clone, the action, and the cash
    it leaves. *)
Lemma forecast_trial_zero_horizon currentState action w s :
  heap w !! currentState = Some s ->
  forecast_trial sample currentState action 0 w
  = Normal (cash (action_effect action (JSON_clone s)))
      (with_object (fresh (dom (heap w)))
         (action_effect action (JSON_clone s)) (gen w) w).
Proof.
  intros H. unfold forecast_trial.
  rewrite (bind_normal _ _ _ _ _ (load_run _ _ _ H)).
  set (o := fresh (dom (heap w))).
  assert (Halloc : alloc (JSON_clone s) w
                   = Normal o (with_object o (JSON_clone s) (gen w) w))
    by reflexivity.
  rewrite (bind_normal _ _ _ _ _ Halloc).
  erewrite bind_normal by (apply applyAction_run, with_object_lookup).
  rewrite with_object_twice. cbn [forecast_months].
  unfold bind at 1, ret at 1.
  apply get_run, with_object_lookup.
Qed.

Lemma forecast_runs_zero_horizon currentState action s left :
  forall w surviveCount totalCash,
    heap w !! currentState = Some s ->
    exists t w',
      forecast_runs sample currentState action 0 left surviveCount totalCash w
      = Normal
          ((if (cash (action_effect action (JSON_clone s)) >? real 0)%J
            then surviveCount + left else surviveCount)%nat, t) w'
      /\ extends w w'
      /\ gen w' = gen w.
Proof.
  induction left as [| left IH]; intros w k0 t0 H.
  - exists t0, w. cbn [forecast_runs]. unfold ret.
    rewrite Nat.add_0_r.
    destruct (cash (action_effect action (JSON_clone s)) >? real 0)%J;
      auto using extends_refl.
  - cbn [forecast_runs].
    rewrite (bind_normal _ _ _ _ _
               (forecast_trial_zero_horizon currentState action w s H)).
    set (w1 := with_object (fresh (dom (heap w)))
                 (action_effect action (JSON_clone s)) (gen w) w).
    assert (Hext : extends w w1) by apply extends_fresh.
    pose proof (extends_lookup _ _ _ _ Hext H) as H1.
    destruct (cash (action_effect action (JSON_clone s)) >? real 0)%J.
    + destruct (IH w1 (S k0) (t0 + cash (action_effect action (JSON_clone s)))%J
                  H1) as (t & w' & Hrun & Hext' & Hgen).
      exists t, w'. rewrite Hrun.
      replace (k0 + S left)%nat with (S k0 + left)%nat by lia.
      eauto using extends_trans.
    + destruct (IH w1 k0 t0 H1) as (t & w' & Hrun & Hext' & Hgen).
      exists t, w'. rewrite Hrun. eauto using extends_trans.
Qed.

(** With no month to simulate and a whole number of runs, at least one,
    [forecastSurvival] never calls the sampler; the survival probability it
    returns is exactly 1 when the cash of the state after the action is
    positive, and exactly 0 otherwise. *)
Lemma forecast_zero_horizon currentState action MONTE_CARLO_RUNS w s :
  heap w !! currentState = Some s ->
  (0 < MONTE_CARLO_RUNS)%nat ->
  exists r w',
    forecastSurvival sample currentState action MONTE_CARLO_RUNS 0 w
    = Normal r w'
    /\ gen w' = gen w
    /\ survivalProbability r
       = if (cash (action_effect action (JSON_clone s)) >? real 0)%J
         then real 1 else real 0.
Proof.
  intros H Hruns.
  destruct (forecast_runs_zero_horizon currentState action s
              MONTE_CARLO_RUNS w O (real 0) H)
    as (t & w' & Hrun & _ & Hgen).
  eexists _, w'. unfold forecastSurvival.
  rewrite (bind_normal _ _ _ _ _ Hrun).
  split; [reflexivity |]. split; [assumption |].
  cbn [fst snd forecast_result survivalProbability].
  destruct (cash (action_effect action (JSON_clone s)) >? real 0)%J.
  - apply of_nat_div_self. assumption.
  - apply zero_div_of_nat. assumption.
Qed.

(** X7: whatever the number of runs, the expected cash of a forecast is a
    rational that is not negative, or plus infinity: it is never NaN and
    never negative. *)
Theorem forecast_expected_cash_not_negative currentState action
    MONTE_CARLO_RUNS FORECAST_MONTHS w s :
  heap w !! currentState = Some s ->
  exists r w',
    forecastSurvival sample currentState action MONTE_CARLO_RUNS
      FORECAST_MONTHS w = Normal r w'
    /\ (real 0 <=? expectedCash r)%J = true.
Proof.
  intros H.
  destruct (forecastSurvival_run sample any_state nonneg_or_inf action
              (fun _ _ => I) (fun _ _ _ _ => I)
              (fun s0 t _ Hc Ht => nonneg_or_inf_add t (cash s0) Hc Ht)
              currentState MONTE_CARLO_RUNS FORECAST_MONTHS w s H I
              (Qle_refl 0))
    as (k & t & w' & _ & Hrun & _ & _ & _ & Ht).
  eexists _, w'. split; [exact Hrun |].
  cbn [forecast_result expectedCash].
  apply nonneg_or_inf_leb, nonneg_or_inf_div_of_nat; [| assumption].
  destruct k; cbn; lia.
Qed.

(** X8: with zero runs [chooseBestAction] returns null, on any argument and
    without touching any object or the generator: every utility is NaN,
    and NaN is not greater than minus infinity. *)
Theorem chooseBestAction_zero_runs currentState w :
  chooseBestAction sample currentState 0 w = Normal Null w.
Proof. reflexivity. Qed.

(** A string of [ACTIONS] is returned when there is at least one run. *)
Lemma chooseBestAction_member currentState monteCarloRuns w s :
  heap w !! currentState = Some s ->
  (1 <= monteCarloRuns)%nat ->
  exists a w',
    chooseBestAction sample currentState monteCarloRuns w = Normal (Str a) w'
    /\ extends w w'
    /\ In a ACTIONS.
Proof.
  intros H Hruns.
  destruct (utilities_run sample (fun u => (u >? NInf)%J = true) currentState
              monteCarloRuns s
              (fun a w1 =>
                 forecast_utility_above sample currentState monteCarloRuns s
                   a w1 Hruns)
              ACTIONS w H)
    as (us & w' & _ & Hext & Hlen & Habove & Hloop).
  destruct (select_spec ACTIONS us Null NInf Hlen)
    as [[_ Hall] | (i & a & u & Ha & _ & Hsel & _)].
  - destruct us as [| u0 us]; [discriminate |].
    apply Forall_cons in Habove. destruct Habove as [Hu0 _].
    rewrite (Hall O u0 eq_refl) in Hu0. discriminate.
  - exists a, w'.
    split; [unfold chooseBestAction; rewrite Hloop, Hsel; reflexivity |].
    split; [assumption |].
    apply list_elem_of_In. apply list_elem_of_lookup. eauto.
Qed.

(** X9: [chooseBestAction] returns on every state object, with null or a
    string of [ACTIONS]; the state it was given, every other object that
    existed and the default template are exactly as before. *)
Theorem chooseBestAction_frame currentState monteCarloRuns w s :
  heap w !! currentState = Some s ->
  exists best w',
    chooseBestAction sample currentState monteCarloRuns w = Normal best w'
    /\ (best = Null \/ exists a, In a ACTIONS /\ best = Str a)
    /\ heap w' !! currentState = Some s
    /\ (forall o x, heap w !! o = Some x -> heap w' !! o = Some x)
    /\ default_state w' = default_state w.
Proof.
  intros H.
  destruct (utilities_run sample any_sum currentState monteCarloRuns s
              (forecast_any_utility sample currentState monteCarloRuns s)
              ACTIONS w H)
    as (us & w' & _ & Hext & Hlen & _ & Hloop).
  exists (select ACTIONS us Null NInf), w'.
  split; [apply Hloop |].
  split.
  { destruct (select_spec ACTIONS us Null NInf Hlen)
      as [[Hsel _] | (i & a & u & Ha & _ & Hsel & _)].
    - left. assumption.
    - right. exists a. split; [| assumption].
      apply list_elem_of_In. apply list_elem_of_lookup. eauto. }
  split; [eauto using extends_lookup |].
  split; [eauto using extends_lookup | apply Hext].
Qed.

End ForecastFacts.

(** X10: on results whose two fields are rationals, [calculateUtility] is
    monotone: a result with no lower survival probability and no lower
    expected cash has no lower utility. *)
Theorem calculateUtility_monotone (r1 r2 : ForecastResult) :
  Num.is_finite (survivalProbability r1) ->
  Num.is_finite (survivalProbability r2) ->
  Num.is_finite (expectedCash r1) ->
  Num.is_finite (expectedCash r2) ->
  (survivalProbability r1 <=? survivalProbability r2)%J = true ->
  (expectedCash r1 <=? expectedCash r2)%J = true ->
  (calculateUtility r1 <=? calculateUtility r2)%J = true.
Proof.
  destruct r1 as [p1 e1], r2 as [p2 e2]. unfold calculateUtility.
  cbn [survivalProbability expectedCash].
  destruct p1 as [| | p1 |], p2 as [| | p2 |], e1 as [| | e1 |],
    e2 as [| | e2 |]; cbn [Num.is_finite]; try contradiction.
  intros _ _ _ _.
  change (real 10000) with (Fin 10000). change (real 0.6) with (Fin (3 # 5)).
  change (real 0.4) with (Fin (2 # 5)).
  cbn [Num.leb Num.div Num.mul Num.add].
  change (Qeq_bool 10000 0) with false. cbn iota.
  intros Hp He. unfold Num.leb. qprop.
  assert (e1 / 10000 <= e2 / 10000).
  { apply Qle_shift_div_l; [lra |].
    unfold Qdiv. rewrite <- Qmult_assoc.
    rewrite (Qmult_comm (/ 10000)), Qmult_inv_r by lra. lra. }
  lra.
Qed.

(** ** The driver, month by month *)

(** The state a snapshot records. *)
Definition state_of (snap : MonthSnapshot) : FinanceState :=
  mkState (snap_cash snap) (snap_salary snap) (snap_expenses snap)
          (snap_inflation snap) (snap_investment snap) (snap_happiness snap).

Lemma state_of_snapshot month action s :
  state_of (snapshot month action s) = s.
Proof. destruct s; reflexivity. Qed.

Section DriverFacts.
Context {rng : Type}.
Variable sample : num -> num -> rng -> num * rng.

Implicit Types (w : @world rng) (o : positive) (s : FinanceState).

(** One iteration of the loop of [runSimulation] from the world [w]: the
    selector returns [best] in a world [w1] that extends [w]; the action and
    the economy step take the state [s] to the state the snapshot records,
    in the world [w2]. *)
Definition month_step (state : positive) (monteCarloRuns month : nat)
    w (snap : MonthSnapshot) w2 : Prop :=
  exists best w1 s,
    heap w !! state = Some s
    /\ chooseBestAction sample state monteCarloRuns w = Normal best w1
    /\ extends w w1
    /\ snap_month snap = month
    /\ snap_action snap = best
    /\ state_of snap
       = economy_step
           (fst (sample (real 0) (real 0.01) (gen w1)))
           (fst (sample (real 0.05) (real 0.1)
                   (snd (sample (real 0) (real 0.01) (gen w1)))))
           (action_effect best s)
    /\ w2
       = with_object state (state_of snap)
           (snd (sample (real 0.05) (real 0.1)
                   (snd (sample (real 0) (real 0.01) (gen w1)))))
           w1.

(** The iterations the loop makes with [left] months to go: none, a last
    one that ends in bankruptcy, or one more followed by the rest. *)
Inductive months_run (state : positive) (monteCarloRuns : nat)
    : nat -> nat -> world -> list MonthSnapshot -> world -> Prop :=
| months_run_none month w :
    months_run state monteCarloRuns month 0 w [] w
| months_run_bankrupt month left w snap w2 :
    month_step state monteCarloRuns month w snap w2 ->
    (snap_cash snap <=? real 0)%J = true ->
    months_run state monteCarloRuns month (S left) w [snap] w2
| months_run_more month left w snap w2 tail w' :
    month_step state monteCarloRuns month w snap w2 ->
    (snap_cash snap <=? real 0)%J = false ->
    months_run state monteCarloRuns (S month) left w2 tail w' ->
    months_run state monteCarloRuns month (S left) w (snap :: tail) w'.

Lemma month_step_state state monteCarloRuns month w snap w2 :
  month_step state monteCarloRuns month w snap w2 ->
  heap w2 !! state = Some (state_of snap).
Proof.
  intros (best & w1 & s & _ & _ & _ & _ & _ & _ & ->).
  apply with_object_lookup.
Qed.

Lemma month_step_frame state monteCarloRuns month w snap w2 :
  month_step state monteCarloRuns month w snap w2 ->
  (forall o x, o <> state -> heap w !! o = Some x -> heap w2 !! o = Some x)
  /\ default_state w2 = default_state w.
Proof.
  intros (best & w1 & s & _ & _ & Hext & _ & _ & _ & ->). split.
  - intros o x Hne Ho. simpl. rewrite lookup_insert_ne by congruence.
    exact (extends_lookup _ _ _ _ Hext Ho).
  - simpl. apply Hext.
Qed.

Lemma simulate_steps state monteCarloRuns left :
  forall month history w s,
    heap w !! state = Some s ->
    exists tail w',
      simulate sample state monteCarloRuns month left history w
      = Normal (history ++ tail) w'
      /\ months_run state monteCarloRuns month left w tail w'.
Proof.
  induction left as [| left IH]; intros month history w s H.
  - exists [], w. rewrite app_nil_r. split; [reflexivity | constructor].
  - cbn [simulate].
    destruct (chooseBestAction_returns sample state monteCarloRuns w s H)
      as (best & w1 & Hbest & Hext).
    rewrite (bind_normal _ _ _ _ _ Hbest).
    pose proof (extends_lookup _ _ _ _ Hext H) as H1.
    rewrite (bind_normal _ _ _ _ _ (applyAction_run state w1 s best H1)).
    erewrite bind_normal
      by (apply updateEconomy_run, with_object_lookup).
    rewrite with_object_twice.
    erewrite bind_normal by (apply load_run, with_object_lookup).
    erewrite bind_normal by (apply get_run, with_object_lookup).
    match goal with
    | |- context [snapshot month best ?s2] => set (s' := s2)
    end.
    match goal with
    | |- context [with_object state s' ?g2 w1] =>
        set (w2 := with_object state s' g2 w1)
    end.
    assert (Hstep : month_step state monteCarloRuns month w
                      (snapshot month best s') w2).
    { exists best, w1, s.
      split; [assumption |]. split; [assumption |]. split; [assumption |].
      split; [reflexivity |]. split; [reflexivity |].
      rewrite state_of_snapshot. split; reflexivity. }
    destruct (cash s' <=? real 0)%J eqn:Hcash.
    + exists [snapshot month best s'], w2.
      split; [reflexivity |]. apply months_run_bankrupt; assumption.
    + destruct (IH (S month) (history ++ [snapshot month best s']) w2 s'
                  (with_object_lookup _ _ _ _))
        as (tail & w' & Hrun & Hsteps).
      exists (snapshot month best s' :: tail), w'.
      split; [rewrite Hrun, <- app_assoc; reflexivity |].
      eapply months_run_more; eassumption.
Qed.

Lemma months_run_numbering state monteCarloRuns month left w tail w' :
  months_run state monteCarloRuns month left w tail w' ->
  forall i snap, tail !! i = Some snap -> snap_month snap = (month + i)%nat.
Proof.
  induction 1 as [month w | month left w snap w2 Hstep Hcash
                 | month left w snap w2 tail w' Hstep Hcash Hrest IH];
    intros i x Hi.
  - rewrite lookup_nil in Hi. discriminate.
  - destruct i as [| [| i]]; try discriminate. injection Hi as <-.
    destruct Hstep as (? & ? & ? & _ & _ & _ & Hm & _). lia.
  - destruct i as [| i]; cbn in Hi.
    + injection Hi as <-.
      destruct Hstep as (? & ? & ? & _ & _ & _ & Hm & _). lia.
    + rewrite (IH i x Hi). lia.
Qed.

Lemma months_run_length state monteCarloRuns month left w tail w' :
  months_run state monteCarloRuns month left w tail w' ->
  length tail = left
  \/ ((length tail < left)%nat
      /\ exists snap,
          last tail = Some snap /\ (snap_cash snap <=? real 0)%J = true).
Proof.
  induction 1 as [month w | month left w snap w2 Hstep Hcash
                 | month left w snap w2 tail w' Hstep Hcash Hrest IH].
  - left. reflexivity.
  - destruct left as [| left]; [left; reflexivity |].
    right. split; [cbn; lia |]. exists snap. split; [reflexivity | assumption].
  - destruct IH as [Hlen | (Hlt & x & Hlast & Hx)].
    + left. cbn. congruence.
    + right. split; [cbn; lia |]. exists x. split; [| assumption].
      destruct tail as [| y tail]; [discriminate |]. exact Hlast.
Qed.

Lemma months_run_frame state monteCarloRuns month left w tail w' :
  months_run state monteCarloRuns month left w tail w' ->
  (forall o x, o <> state -> heap w !! o = Some x -> heap w' !! o = Some x)
  /\ default_state w' = default_state w.
Proof.
  induction 1 as [month w | month left w snap w2 Hstep Hcash
                 | month left w snap w2 tail w' Hstep Hcash Hrest IH].
  - auto.
  - eapply month_step_frame; eassumption.
  - destruct (month_step_frame _ _ _ _ _ _ Hstep) as [Hf Hd].
    destruct IH as [Hf' Hd']. split; [auto | congruence].
Qed.

(** [s2] is what an action [a] and one economy step, with draws of the
    sampler, make of [s1]. *)
Definition one_month (a : value) (s1 s2 : FinanceState) : Prop :=
  exists g1 g2,
    s2 = economy_step (fst (sample (real 0) (real 0.01) g1))
                      (fst (sample (real 0.05) (real 0.1) g2))
                      (action_effect a s1).

Lemma month_step_one_month state monteCarloRuns month w snap w2 s :
  month_step state monteCarloRuns month w snap w2 ->
  heap w !! state = Some s ->
  one_month (snap_action snap) s (state_of snap).
Proof.
  intros (best & w1 & s0 & Hs0 & _ & _ & _ & Ha & Hstate & _) Hs.
  rewrite Hs in Hs0. injection Hs0 as <-. rewrite Ha.
  eexists _, _. exact Hstate.
Qed.

Lemma months_run_links state monteCarloRuns month left w tail w' :
  months_run state monteCarloRuns month left w tail w' ->
  forall s, heap w !! state = Some s ->
  (forall a, tail !! O = Some a -> one_month (snap_action a) s (state_of a))
  /\ (forall i a b,
        tail !! i = Some a -> tail !! S i = Some b ->
        one_month (snap_action b) (state_of a) (state_of b)).
Proof.
  induction 1 as [month w | month left w snap w2 Hstep Hcash
                 | month left w snap w2 tail w' Hstep Hcash Hrest IH];
    intros s Hs.
  - split; intros; discriminate.
  - split.
    + intros a Ha. injection Ha as <-.
      eapply month_step_one_month; eassumption.
    + intros i a b _ Hb. destruct i; discriminate.
  - destruct (IH _ (month_step_state _ _ _ _ _ _ Hstep)) as [Hfirst Hnext].
    split.
    + intros a Ha. injection Ha as <-.
      eapply month_step_one_month; eassumption.
    + intros [| i] a b Ha Hb; cbn in Ha, Hb.
      * injection Ha as <-. apply Hfirst. assumption.
      * eapply Hnext; eassumption.
Qed.

Section Recorded.
(** [A] holds of whatever the selector returns for the state object, [P] of
    the state before a month and [Q] of the state after it. *)
Variable state : positive.
Variable monteCarloRuns : nat.
Variable A : value -> Prop.
Variables P Q : FinanceState -> Prop.
Hypothesis selector_A : forall w s best w1,
  heap w !! state = Some s ->
  chooseBestAction sample state monteCarloRuns w = Normal best w1 ->
  A best.
Hypothesis month_PQ : forall a s1 s2, P s1 -> one_month a s1 s2 -> Q s2.
Hypothesis Q_P : forall s, Q s -> P s.

Lemma months_run_recorded month left w tail w' :
  months_run state monteCarloRuns month left w tail w' ->
  forall s, heap w !! state = Some s -> P s ->
  Forall (fun snap => A (snap_action snap) /\ Q (state_of snap)) tail.
Proof.
  assert (Hone : forall month w snap w2 s,
             month_step state monteCarloRuns month w snap w2 ->
             heap w !! state = Some s -> P s ->
             A (snap_action snap) /\ Q (state_of snap)).
  { intros m w0 snap w2 s Hstep Hs HP. split.
    - destruct Hstep as (best & w1 & s0 & Hs0 & Hbest & _ & _ & -> & _).
      eapply selector_A; eassumption.
    - eapply month_PQ; [exact HP |].
      eapply month_step_one_month; eassumption. }
  induction 1 as [month w | month left w snap w2 Hstep Hcash
                 | month left w snap w2 tail w' Hstep Hcash Hrest IH];
    intros s Hs HP.
  - constructor.
  - constructor; [eapply Hone; eassumption | constructor].
  - pose proof (Hone _ _ _ _ _ Hstep Hs HP) as Hsnap.
    constructor; [assumption |].
    apply (IH _ (month_step_state _ _ _ _ _ _ Hstep)).
    apply Q_P. apply Hsnap.
Qed.
End Recorded.

(** What [runSimulation] does: it reads the template, allocates its clone
    at a fresh location, and runs the months from there. *)
Lemma runSimulation_steps config w template :
  initial_template (initialState config) w = Normal template w ->
  exists history w',
    runSimulation sample config w = Normal history w'
    /\ months_run (fresh (dom (heap w)))
         (default 100%nat (monteCarloRuns config)) 1
         (default 24%nat (months config))
         (with_object (fresh (dom (heap w))) (JSON_clone template) (gen w) w)
         history w'.
Proof.
  intros Htemplate. unfold runSimulation.
  rewrite (bind_normal _ _ _ _ _ Htemplate).
  set (state := fresh (dom (heap w))).
  assert (Halloc : alloc (JSON_clone template) w
                   = Normal state
                       (with_object state (JSON_clone template) (gen w) w))
    by reflexivity.
  rewrite (bind_normal _ _ _ _ _ Halloc).
  destruct (simulate_steps state (default 100%nat (monteCarloRuns config))
              (default 24%nat (months config)) 1 []
              (with_object state (JSON_clone template) (gen w) w)
              (JSON_clone template) (with_object_lookup _ _ _ _))
    as (tail & w' & Hrun & Hsteps).
  exists tail, w'. auto.
Qed.

(** X11: [runSimulation] never changes what it is given: when it returns,
    every object that existed before the call, the initial state named by
    the configuration included, and the default template have the fields
    they had. *)
Theorem runSimulation_leaves_inputs config w template :
  initial_template (initialState config) w = Normal template w ->
  exists history w',
    runSimulation sample config w = Normal history w'
    /\ (forall o x, heap w !! o = Some x -> heap w' !! o = Some x)
    /\ default_state w' = default_state w.
Proof.
  intros Htemplate.
  destruct (runSimulation_steps config w template Htemplate)
    as (history & w' & Hrun & Hsteps).
  exists history, w'. split; [assumption |].
  destruct (months_run_frame _ _ _ _ _ _ _ Hsteps) as [Hf Hd].
  pose proof (extends_fresh w (JSON_clone template) (gen w)) as Hext.
  assert (Hnew : heap w !! fresh (dom (heap w)) = None)
    by (apply not_elem_of_dom, is_fresh).
  split.
  - intros o x Ho. apply Hf.
    + intros ->. rewrite Hnew in Ho. discriminate.
    + exact (extends_lookup _ _ _ _ Hext Ho).
  - rewrite Hd. reflexivity.
Qed.

(** X12: the snapshots of a history are numbered from 1 without a gap: the
    snapshot at index [i] has month [i + 1]. *)
Theorem runSimulation_months_numbered config w template :
  initial_template (initialState config) w = Normal template w ->
  exists history w',
    runSimulation sample config w = Normal history w'
    /\ forall i snap, history !! i = Some snap -> snap_month snap = S i.
Proof.
  intros Htemplate.
  destruct (runSimulation_steps config w template Htemplate)
    as (history & w' & Hrun & Hsteps).
  exists history, w'. split; [assumption |].
  intros i snap Hi.
  exact (months_run_numbering _ _ _ _ _ _ _ Hsteps i snap Hi).
Qed.

(** X13: a history has exactly [months] snapshots (24 when the
    configuration gives none), unless it is shorter and its last snapshot
    has a cash of zero or less; with [months] equal to 0 it is empty. *)
Theorem runSimulation_full_length_or_bankrupt config w template :
  initial_template (initialState config) w = Normal template w ->
  exists history w',
    runSimulation sample config w = Normal history w'
    /\ (length history = default 24%nat (months config)
        \/ ((length history < default 24%nat (months config))%nat
            /\ exists snap,
                last history = Some snap
                /\ (snap_cash snap <=? real 0)%J = true))
    /\ (months config = Some O -> history = []).
Proof.
  intros Htemplate.
  destruct (runSimulation_steps config w template Htemplate)
    as (history & w' & Hrun & Hsteps).
  exists history, w'. split; [assumption |].
  split; [exact (months_run_length _ _ _ _ _ _ _ Hsteps) |].
  intros Hm. rewrite Hm in Hsteps. cbn in Hsteps.
  inversion Hsteps. reflexivity.
Qed.

(** X14: a history is a trajectory.  The first snapshot records what its
    action and one economy step make of the clone of the template, and
    every later snapshot what its action and one economy step make of the
    state the snapshot before it records. *)
Theorem runSimulation_trajectory config w template :
  initial_template (initialState config) w = Normal template w ->
  exists history w',
    runSimulation sample config w = Normal history w'
    /\ (forall a,
          history !! O = Some a ->
          one_month (snap_action a) (JSON_clone template) (state_of a))
    /\ (forall i a b,
          history !! i = Some a -> history !! S i = Some b ->
          one_month (snap_action b) (state_of a) (state_of b)).
Proof.
  intros Htemplate.
  destruct (runSimulation_steps config w template Htemplate)
    as (history & w' & Hrun & Hsteps).
  exists history, w'. split; [assumption |].
  exact (months_run_links _ _ _ _ _ _ _ Hsteps _ (with_object_lookup _ _ _ _)).
Qed.

(** X15: with zero Monte Carlo runs the action of every snapshot is null:
    the driver then applies no action at all. *)
Theorem runSimulation_zero_runs_null_actions config w template :
  initial_template (initialState config) w = Normal template w ->
  monteCarloRuns config = Some O ->
  exists history w',
    runSimulation sample config w = Normal history w'
    /\ Forall (fun snap => snap_action snap = Null) history.
Proof.
  intros Htemplate Hruns.
  destruct (runSimulation_steps config w template Htemplate)
    as (history & w' & Hrun & Hsteps).
  exists history, w'. split; [assumption |].
  rewrite Hruns in Hsteps. cbn [default] in Hsteps.
  eapply Forall_impl.
  - eapply (months_run_recorded _ O (fun best => best = Null)
              (fun _ => True) (fun _ => True));
      [ | auto | auto | exact Hsteps | apply with_object_lookup | exact I ].
    intros w0 s best w1 _ Hbest.
    change (chooseBestAction sample (fresh (dom (heap w))) 0 w0)
      with (Normal (rng := rng) Null w0) in Hbest.
    congruence.
  - intros snap [Hnull _]. exact Hnull.
Qed.

(** X16: with at least one Monte Carlo run (100 when the configuration
    gives none) the action of every snapshot is a string of [ACTIONS]. *)
Theorem runSimulation_actions_known config w template :
  initial_template (initialState config) w = Normal template w ->
  (1 <= default 100%nat (monteCarloRuns config))%nat ->
  exists history w',
    runSimulation sample config w = Normal history w'
    /\ Forall (fun snap => exists a, In a ACTIONS /\ snap_action snap = Str a)
         history.
Proof.
  intros Htemplate Hruns.
  destruct (runSimulation_steps config w template Htemplate)
    as (history & w' & Hrun & Hsteps).
  exists history, w'. split; [assumption |].
  eapply Forall_impl.
  - eapply (months_run_recorded _ _
              (fun best => exists a, In a ACTIONS /\ best = Str a)
              (fun _ => True) (fun _ => True));
      [ | auto | auto | exact Hsteps | apply with_object_lookup | exact I ].
    intros w0 s best w1 Hs Hbest.
    destruct (chooseBestAction_member sample _ _ w0 s Hs Hruns)
      as (a & w1' & Hbest' & _ & Hin).
    rewrite Hbest in Hbest'. injection Hbest' as -> _.
    exists a. auto.
  - intros snap [Hknown _]. exact Hknown.
Qed.



(** What one month does to the salary, the happiness and the investment. *)
Lemma one_month_slow_fields a s1 s2 :
  one_month a s1 s2 ->
  ((real 0 <=? salary s1)%J = true -> (salary s1 <=? salary s2)%J = true)
  /\ (happiness s1 <> NaN -> (happiness s2 <=? happiness s1)%J = true)
  /\ (strict_eq a "INVEST" = false -> investment s2 = investment s1).
Proof.
  intros (g1 & g2 & ->).
  cbn [economy_step salary happiness investment].
  change (real 0) with (Fin 0).
  split; [| split].
  - unfold action_effect.
    repeat match goal with
           | |- context [strict_eq a ?l] => destruct (strict_eq a l)
           end;
      cbn [salary set_salary set_happiness set_cash set_expenses
           set_investment];
      destruct (salary s1) as [| | x |]; cbn; try congruence;
      try reflexivity; intros Hx; qprop; lra.
  - unfold action_effect.
    repeat match goal with
           | |- context [strict_eq a ?l] => destruct (strict_eq a l)
           end;
      cbn [happiness set_salary set_happiness set_cash set_expenses
           set_investment];
      destruct (happiness s1) as [| | h |]; cbn; try congruence;
      try reflexivity; intros _; qprop; lra.
  - intros Hinv. unfold action_effect. rewrite Hinv.
    repeat match goal with
           | |- context [strict_eq a ?l] => destruct (strict_eq a l)
           end; reflexivity.
Qed.

(** X18: from one snapshot to the next, a salary that is not negative does
    not fall, the happiness does not rise, and the investment is the same
    unless the action of the later snapshot is INVEST. *)
Theorem runSimulation_slow_fields config w template :
  initial_template (initialState config) w = Normal template w ->
  exists history w',
    runSimulation sample config w = Normal history w'
    /\ forall i a b,
        history !! i = Some a -> history !! S i = Some b ->
        ((real 0 <=? snap_salary a)%J = true ->
         (snap_salary a <=? snap_salary b)%J = true)
        /\ (snap_happiness a <> NaN ->
            (snap_happiness b <=? snap_happiness a)%J = true)
        /\ (strict_eq (snap_action b) "INVEST" = false ->
            snap_investment b = snap_investment a).
Proof.
  intros Htemplate.
  destruct (runSimulation_steps config w template Htemplate)
    as (history & w' & Hrun & Hsteps).
  exists history, w'. split; [assumption |].
  intros i a b Ha Hb.
  destruct (months_run_links _ _ _ _ _ _ _ Hsteps _
              (with_object_lookup _ _ _ _)) as [_ Hnext].
  exact (one_month_slow_fields _ _ _ (Hnext i a b Ha Hb)).
Qed.

End DriverFacts.

(** ** The Node script [algo.js]

    [algo.js] holds its own copies of the engine's functions, with the
    three counts as constants of the file and the state in a variable of
    the file, and runs the months at top level.  [updateEconomy],
    [applyAction] and [calculateUtility] are the same text as in
    [script.js]; what the script prints to the console is left out. *)
Module Algo.

Definition MONTHS_TO_SIMULATE : nat := 24.
Definition FORECAST_MONTHS : nat := 6.
Definition MONTE_CARLO_RUNS : nat := 100.

Fixpoint forecast_runs {rng : Type} (sample : num -> num -> rng -> num * rng)
    (currentState : positive) (action : value) (left : nat)
    (surviveCount : nat) (totalCash : num) : M (nat * num) :=
  match left with
  | O => ret (surviveCount, totalCash)
  | S left' =>
      bind (load currentState) (fun s =>
      bind (alloc (JSON_clone s)) (fun simState =>
      bind (applyAction simState action) (fun _ =>
      bind (forecast_months sample simState FORECAST_MONTHS) (fun _ =>
      bind (get cash simState) (fun c =>
        if (c >? real 0)%J then
          forecast_runs sample currentState action left'
            (S surviveCount) (totalCash + c)%J
        else
          forecast_runs sample currentState action left'
            surviveCount totalCash)))))
  end.

Definition forecastSurvival {rng : Type}
    (sample : num -> num -> rng -> num * rng)
    (currentState : positive) (action : value) : M ForecastResult :=
  bind (forecast_runs sample currentState action MONTE_CARLO_RUNS O (real 0))
    (fun r =>
       ret (mkForecast
              (Num.of_nat (fst r) / Num.of_nat MONTE_CARLO_RUNS)%J
              (snd r / Num.of_nat (or_one (fst r)))%J)).

Fixpoint choose_loop {rng : Type} (sample : num -> num -> rng -> num * rng)
    (currentState : positive) (actions : list string)
    (bestAction : value) (bestScore : num) : M value :=
  match actions with
  | [] => ret bestAction
  | action :: actions' =>
      bind (forecastSurvival sample currentState (Str action))
        (fun forecast =>
           let utility := calculateUtility forecast in
           if (utility >? bestScore)%J then
             choose_loop sample currentState actions' (Str action) utility
           else
             choose_loop sample currentState actions' bestAction bestScore)
  end.

Definition chooseBestAction {rng : Type}
    (sample : num -> num -> rng -> num * rng) (currentState : positive)
    : M value :=
  choose_loop sample currentState
    ["WORK_MORE"; "CUT_EXPENSES"; "INVEST"; "UPS KILL"; "DO_NOTHING"]%string
    Null NInf.

(** The loop at the end of the file, on the state object of the file, by
    the number of months left. *)
Fixpoint months_loop {rng : Type} (sample : num -> num -> rng -> num * rng)
    (state : positive) (left : nat) : M unit :=
  match left with
  | O => ret tt
  | S left' =>
      bind (chooseBestAction sample state) (fun bestAction =>
      bind (applyAction state bestAction) (fun _ =>
      bind (updateEconomy sample state) (fun _ =>
      bind (get cash state) (fun c =>
        if (c <=? real 0)%J then ret tt
        else months_loop sample state left'))))
  end.

Definition main {rng : Type} (sample : num -> num -> rng -> num * rng)
    (state : positive) : M unit :=
  months_loop sample state MONTHS_TO_SIMULATE.

End Algo.

Section AlgoFacts.
Context {rng : Type}.
Variable sample : num -> num -> rng -> num * rng.

Implicit Types (w : @world rng) (o : positive) (s : FinanceState).

Lemma bind_assoc {A B C} (m : M (rng := rng) A) (k : A -> M B)
    (k' : B -> M C) w :
  bind (bind m k) k' w = bind m (fun a => bind (k a) k') w.
Proof. unfold bind. destruct (m w); reflexivity. Qed.

Lemma bind_ext {A B} (m : M (rng := rng) A) (k1 k2 : A -> M B) w :
  (forall a w', k1 a w' = k2 a w') -> bind m k1 w = bind m k2 w.
Proof. intros H. unfold bind. destruct (m w); auto. Qed.

Lemma algo_forecast_runs currentState action left :
  forall surviveCount totalCash w,
    Algo.forecast_runs sample currentState action left surviveCount totalCash w
    = forecast_runs sample currentState action Algo.FORECAST_MONTHS left
        surviveCount totalCash w.
Proof.
  induction left as [| left IH]; intros k t w; [reflexivity |].
  cbn [Algo.forecast_runs forecast_runs]. unfold forecast_trial.
  rewrite !bind_assoc. apply bind_ext. intros s w1.
  rewrite !bind_assoc. apply bind_ext. intros simState w2.
  rewrite !bind_assoc. apply bind_ext. intros [] w3.
  rewrite !bind_assoc. apply bind_ext. intros [] w4.
  apply bind_ext. intros c w5.
  destruct (c >? real 0)%J; apply IH.
Qed.

Lemma algo_forecastSurvival currentState action w :
  Algo.forecastSurvival sample currentState action w
  = forecastSurvival sample currentState action Algo.MONTE_CARLO_RUNS
      Algo.FORECAST_MONTHS w.
Proof.
  unfold Algo.forecastSurvival, forecastSurvival, bind.
  rewrite algo_forecast_runs. reflexivity.
Qed.

Lemma algo_choose_loop currentState actions :
  forall bestAction bestScore w,
    Algo.choose_loop sample currentState actions bestAction bestScore w
    = choose_loop sample currentState Algo.MONTE_CARLO_RUNS actions
        bestAction bestScore w.
Proof.
  induction actions as [| a actions IH]; intros b sc w; [reflexivity |].
  cbn [Algo.choose_loop choose_loop]. unfold bind.
  rewrite algo_forecastSurvival.
  change FORECAST_MONTHS_default with Algo.FORECAST_MONTHS.
  destruct (forecastSurvival sample currentState (Str a)
              Algo.MONTE_CARLO_RUNS Algo.FORECAST_MONTHS w) as [r w1 | e];
    [| reflexivity].
  cbv zeta. destruct (calculateUtility r >? sc)%J; apply IH.
Qed.

Lemma algo_chooseBestAction currentState w :
  Algo.chooseBestAction sample currentState w
  = chooseBestAction sample currentState Algo.MONTE_CARLO_RUNS w.
Proof. apply algo_choose_loop. Qed.

Lemma algo_months_loop state month left w tail w' :
  months_run sample state Algo.MONTE_CARLO_RUNS month left w tail w' ->
  Algo.months_loop sample state left w = Normal tt w'.
Proof.
  assert (Hone : forall month w snap w2 (k : num -> M unit),
             month_step sample state Algo.MONTE_CARLO_RUNS month w snap w2 ->
             bind (Algo.chooseBestAction sample state) (fun bestAction =>
             bind (applyAction state bestAction) (fun _ =>
             bind (updateEconomy sample state) (fun _ =>
             bind (get cash state) k))) w
             = k (snap_cash snap) w2).
  { intros m w0 snap w2 k
      (best & w1 & s & Hs & Hbest & Hext & _ & _ & Hstate & ->).
    rewrite <- algo_chooseBestAction in Hbest.
    rewrite (bind_normal _ _ _ _ _ Hbest).
    pose proof (extends_lookup _ _ _ _ Hext Hs) as H1.
    rewrite (bind_normal _ _ _ _ _ (applyAction_run state w1 s best H1)).
    erewrite bind_normal
      by (apply updateEconomy_run, with_object_lookup).
    rewrite with_object_twice.
    match goal with
    | |- context [with_object state ?s2 _ w1] =>
        replace s2 with (state_of snap) by (rewrite Hstate; reflexivity)
    end.
    erewrite bind_normal by (apply get_run, with_object_lookup).
    reflexivity. }
  induction 1 as [month w | month left w snap w2 Hstep Hcash
                 | month left w snap w2 tail w' Hstep Hcash Hrest IH].
  - reflexivity.
  - cbn [Algo.months_loop].
    rewrite (Hone _ _ _ _
               (fun c => if (c <=? real 0)%J then ret tt
                         else Algo.months_loop sample state left) Hstep).
    rewrite Hcash. reflexivity.
  - cbn [Algo.months_loop].
    rewrite (Hone _ _ _ _
               (fun c => if (c <=? real 0)%J then ret tt
                         else Algo.months_loop sample state left) Hstep).
    rewrite Hcash. exact IH.
Qed.

(** X19: the selector of [algo.js] is the selector of [script.js] with 100
    runs, and the top-level loop of [algo.js] is the loop of
    [runSimulation] for 24 months and 100 runs, run in place: on the same
    state object and with the same draws, both return and leave the same
    world. *)
Theorem algo_main_is_the_driver_loop state w s :
  heap w !! state = Some s ->
  Algo.chooseBestAction sample state w = chooseBestAction sample state 100 w
  /\ exists history w',
      simulate sample state 100 1 24 [] w = Normal history w'
      /\ Algo.main sample state w = Normal tt w'.
Proof.
  intros H. split; [apply algo_chooseBestAction |].
  destruct (simulate_steps sample state 100 24 1 [] w s H)
    as (tail & w' & Hrun & Hsteps).
  exists tail, w'. split; [exact Hrun |].
  exact (algo_months_loop state 1 24 w tail w' Hsteps).
Qed.

End AlgoFacts.

(** ** The default-state accessors of [script.js]

    [DEFAULT_STATE] is an object of the module that [setDefaultState] and
    [resetDefaultState] mutate.  Here an object is a finite map from
    property names to primitive values, and each accessor is a function of
    the object the module holds.  [ORIGINAL_DEFAULT_STATE] is a constant
    that no function of the module writes to. *)
Module Defaults.

(** What a caller can pass as [updates]: a primitive value or an object. *)
Inductive argument : Type :=
| Primitive (v : value)
| Object (properties : gmap string value).

(** [!v] *)
Definition falsy (a : argument) : bool :=
  match a with
  | Primitive Undefined | Primitive Null => true
  | Primitive (Str s) => String.eqb s ""
  | Primitive (Number NaN) => true
  | Primitive (Number (Fin q)) => Qeq_bool q 0
  | Primitive (Number _) => false
  | Object _ => false
  end.

Definition typeof (a : argument) : string :=
  match a with
  | Primitive Undefined => "undefined"
  | Primitive Null => "object"
  | Primitive (Str _) => "string"
  | Primitive (Number _) => "number"
  | Object _ => "object"
  end.

(** [JSON.parse(JSON.stringify(v))] on a property value: [None] when
    [JSON.stringify] leaves the property out. *)
Definition JSON_value (v : value) : option value :=
  match v with
  | Undefined => None
  | Null => Some Null
  | Str s => Some (Str s)
  | Number (Fin q) => Some (Number (Fin q))
  | Number _ => Some Null
  end.

Definition JSON_object (D : gmap string value) : gmap string value :=
  omap JSON_value D.

(** The object literal [DEFAULT_STATE] is initialised with. *)
Definition DEFAULT_STATE_literal : gmap string value :=
  list_to_map
    [("cash", Number (real 10000)); ("salary", Number (real 3000));
     ("expenses", Number (real 2500)); ("inflation", Number (real 0.05));
     ("investment", Number (real 0)); ("happiness", Number (real 100))]%string.

Definition ORIGINAL_DEFAULT_STATE : gmap string value :=
  JSON_object DEFAULT_STATE_literal.

(** [Object.assign(target, source)] for a source with no own property
    named [__proto__]: each property of the source is set on the target.
    (The one name [__proto__] goes through the setter the target inherits
    and creates no property; the theorems on [setDefaultState] with an
    object exclude it.) *)
Definition Object_assign (target source : gmap string value)
    : gmap string value :=
  source ∪ target.

(** [Object.keys(D)] *)
Definition Object_keys (D : gmap string value) : list string :=
  (map_to_list D).*1.

Definition setDefaultState (updates : argument) (D : gmap string value)
    : gmap string value :=
  if falsy updates || negb (String.eqb (typeof updates) "object") then D
  else
    match updates with
    | Object properties => Object_assign D properties
    | Primitive _ => D
    end.

Definition getDefaultState (D : gmap string value) : gmap string value :=
  JSON_object D.

Definition resetDefaultState (D : gmap string value) : gmap string value :=
  let emptied := foldr delete D (Object_keys D) in
  Object_assign emptied (JSON_object ORIGINAL_DEFAULT_STATE).

(** A value [JSON.stringify] prints as it is. *)
Definition JSON_safe (v : value) : Prop :=
  match v with
  | Undefined => False
  | Number (Fin _) => True
  | Number _ => False
  | _ => True
  end.

End Defaults.

Lemma lookup_foldr_delete_keys (D : gmap string value) (keys : list string)
    (k : string) :
  foldr delete D keys !! k = if decide (k ∈ keys) then None else D !! k.
Proof.
  induction keys as [| k' keys IH]; cbn [foldr].
  - destruct (decide (k ∈ [])) as [Hin |]; [| reflexivity].
    apply elem_of_nil in Hin. contradiction.
  - destruct (decide (k' = k)) as [-> | Hne].
    + rewrite lookup_delete_eq.
      destruct (decide (k ∈ k :: keys)) as [| Hnot]; [reflexivity |].
      exfalso. apply Hnot. left.
    + rewrite lookup_delete_ne by assumption. rewrite IH.
      destruct (decide (k ∈ keys)) as [Hin | Hnot];
        destruct (decide (k ∈ k' :: keys)) as [Hin' | Hnot'];
        try reflexivity.
      * exfalso. apply Hnot'. right. assumption.
      * exfalso. apply elem_of_cons in Hin'. destruct Hin'; congruence.
Qed.

Lemma delete_all_keys (D : gmap string value) :
  foldr delete D (Defaults.Object_keys D) = ∅.
Proof.
  apply map_eq. intros k. rewrite lookup_foldr_delete_keys, lookup_empty.
  destruct (decide (k ∈ Defaults.Object_keys D)) as [| Hnot]; [reflexivity |].
  destruct (D !! k) as [v |] eqn:Hk; [| reflexivity].
  exfalso. apply Hnot. unfold Defaults.Object_keys.
  apply list_elem_of_fmap. exists (k, v). split; [reflexivity |].
  apply elem_of_map_to_list. assumption.
Qed.

Lemma JSON_value_safe (v v' : value) :
  Defaults.JSON_value v = Some v' ->
  Defaults.JSON_safe v' /\ Defaults.JSON_value v' = Some v'.
Proof.
  destruct v as [| | s | [| | q |]]; cbn; intros Hv; try discriminate;
    injection Hv as <-; cbn; auto.
Qed.

Lemma JSON_object_literal :
  Defaults.JSON_object Defaults.DEFAULT_STATE_literal
  = Defaults.DEFAULT_STATE_literal.
Proof.
  apply map_eq. intros k. unfold Defaults.JSON_object. rewrite lookup_omap.
  destruct (Defaults.DEFAULT_STATE_literal !! k) as [v |] eqn:Hk;
    [| reflexivity].
  unfold Defaults.DEFAULT_STATE_literal in Hk. cbn [list_to_map foldr] in Hk.
  repeat (rewrite lookup_insert in Hk; case_decide;
          [injection Hk as <-; reflexivity |]).
  rewrite lookup_empty in Hk. discriminate.
Qed.

(** X20: [resetDefaultState] restores the six values the module was loaded
    with and removes every other property, whatever the object held; what
    [getDefaultState] then returns is the original literal. *)
Theorem resetDefaultState_restores (D : gmap string value) :
  Defaults.resetDefaultState D = Defaults.DEFAULT_STATE_literal
  /\ Defaults.getDefaultState (Defaults.resetDefaultState D)
     = Defaults.DEFAULT_STATE_literal.
Proof.
  assert (Hreset : Defaults.resetDefaultState D
                   = Defaults.DEFAULT_STATE_literal).
  { unfold Defaults.resetDefaultState, Defaults.Object_assign,
      Defaults.ORIGINAL_DEFAULT_STATE.
    cbv zeta. rewrite delete_all_keys, !JSON_object_literal.
    apply (right_id_L ∅ (∪)). }
  split; [assumption |].
  rewrite Hreset. apply JSON_object_literal.
Qed.

(** X21: for anything that is no object (undefined, null, a string, a
    number) the guard of [setDefaultState] holds, and the call changes
    nothing. *)
Theorem setDefaultState_ignores_primitives (v : value)
    (D : gmap string value) :
  Defaults.falsy (Defaults.Primitive v)
  || negb (String.eqb (Defaults.typeof (Defaults.Primitive v)) "object")
  = true
  /\ Defaults.setDefaultState (Defaults.Primitive v) D = D.
Proof.
  assert (Hguard : Defaults.falsy (Defaults.Primitive v)
                   || negb (String.eqb
                              (Defaults.typeof (Defaults.Primitive v))
                              "object") = true).
  { destruct v as [| | s | n]; try reflexivity.
    - cbn. apply orb_true_r.
    - cbn. apply orb_true_r. }
  split; [assumption |].
  unfold Defaults.setDefaultState. rewrite Hguard. reflexivity.
Qed.

(** X22: [setDefaultState] with an object that has no property named
    [__proto__] sets the properties the object names and keeps all others;
    two such calls in a row are one call with the two objects merged, the
    later one winning where both name a property. *)
Theorem setDefaultState_merges (u1 u2 D : gmap string value) :
  u1 !! "__proto__"%string = None ->
  u2 !! "__proto__"%string = None ->
  (forall k,
      Defaults.setDefaultState (Defaults.Object u1) D !! k
      = match u1 !! k with
        | Some v => Some v
        | None => D !! k
        end)
  /\ Defaults.setDefaultState (Defaults.Object u2)
       (Defaults.setDefaultState (Defaults.Object u1) D)
     = Defaults.setDefaultState (Defaults.Object (u2 ∪ u1)) D.
Proof.
  intros _ _.
  unfold Defaults.setDefaultState, Defaults.Object_assign. cbn. split.
  - intros k. rewrite lookup_union. destruct (u1 !! k), (D !! k); reflexivity.
  - apply (assoc_L (∪)).
Qed.

(** X23: for an update that has no property named [__proto__], what
    [getDefaultState] returns after [setDefaultState] holds, for a
    property the update names, the value given when that is null, a string
    or a rational; null when it is NaN or an infinity; and no such property
    when it is undefined.  The copy holds no undefined and no NaN or
    infinity, and a copy of it is the same object again. *)
Theorem getDefaultState_after_set (u D : gmap string value) :
  u !! "__proto__"%string = None ->
  (forall k v,
      u !! k = Some v ->
      Defaults.getDefaultState
        (Defaults.setDefaultState (Defaults.Object u) D) !! k
      = match v with
        | Undefined => None
        | Number (Fin q) => Some (Number (Fin q))
        | Number _ => Some Null
        | _ => Some v
        end)
  /\ (forall k v,
        Defaults.getDefaultState D !! k = Some v -> Defaults.JSON_safe v)
  /\ Defaults.getDefaultState (Defaults.getDefaultState D)
     = Defaults.getDefaultState D.
Proof.
  intros _.
  unfold Defaults.getDefaultState, Defaults.JSON_object. split; [| split].
  - intros k v Hk.
    unfold Defaults.setDefaultState, Defaults.Object_assign. cbn.
    rewrite lookup_omap, lookup_union, Hk.
    destruct (D !! k); cbn; destruct v as [| | s | [| | q |]]; reflexivity.
  - intros k v Hk. rewrite lookup_omap in Hk.
    destruct (D !! k) as [v0 |]; [| discriminate].
    exact (proj1 (JSON_value_safe v0 v Hk)).
  - apply map_eq. intros k. rewrite !lookup_omap.
    destruct (D !! k) as [v0 |]; [| reflexivity]. cbn.
    destruct (Defaults.JSON_value v0) as [v |] eqn:Hv; [| reflexivity].
    exact (proj2 (JSON_value_safe v0 v Hv)).
Qed.

(** ** The further theorems at concrete inputs *)


Lemma updateEconomy_expenses_grow_witness :
  exists s' w',
    updateEconomy mean_sampler 1%positive world0 = Normal tt w'
    /\ heap w' !! 1%positive = Some s'
    /\ (expenses DEFAULT_STATE <=? expenses s')%J = true.
Proof.
  exact (updateEconomy_expenses_grow mean_sampler 1%positive world0
           DEFAULT_STATE eq_refl I eq_refl I I).
Defined.


Lemma applyAction_salary_happiness_witness :
  exists s' w',
    applyAction 1%positive (Str "WORK_MORE") world0 = Normal tt w'
    /\ heap w' !! 1%positive = Some s'
    /\ (salary DEFAULT_STATE <=? salary s')%J = true.
Proof.
  destruct (applyAction_salary_happiness 1%positive world0 DEFAULT_STATE
              (Str "WORK_MORE") eq_refl) as (s' & w' & Hrun & Hs' & Hsal & _).
  exists s', w'. auto.
Defined.

Lemma no_object_TypeError_witness :
  heap world0 !! 2%positive = None
  /\ updateEconomy mean_sampler 2%positive world0 = Throw TypeError
  /\ applyAction 2%positive (Str "INVEST") world0 = Throw TypeError.
Proof.
  split; [reflexivity |].
  exact (no_object_TypeError mean_sampler 2%positive world0 (Str "INVEST")
           eq_refl).
Defined.

Lemma forecast_expected_cash_not_negative_witness :
  exists r w',
    forecastSurvival mean_sampler 1%positive (Str "INVEST") 2 6 world0
    = Normal r w'
    /\ (real 0 <=? expectedCash r)%J = true.
Proof.
  exact (forecast_expected_cash_not_negative mean_sampler 1%positive
           (Str "INVEST") 2 6 world0 DEFAULT_STATE eq_refl).
Defined.

Lemma chooseBestAction_frame_witness :
  exists best w',
    chooseBestAction mean_sampler 1%positive 1 world0 = Normal best w'
    /\ heap w' !! 1%positive = Some DEFAULT_STATE.
Proof.
  destruct (chooseBestAction_frame mean_sampler 1%positive 1 world0
              DEFAULT_STATE eq_refl) as (best & w' & Hrun & _ & Hs & _).
  exists best, w'. auto.
Defined.

Lemma calculateUtility_monotone_witness :
  (calculateUtility (mkForecast (real 0.5) (real 1000))
   <=? calculateUtility (mkForecast (real 1) (real 5000)))%J = true.
Proof.
  exact (calculateUtility_monotone (mkForecast (real 0.5) (real 1000))
           (mkForecast (real 1) (real 5000)) I I I I eq_refl eq_refl).
Defined.

(** The configuration of the runs below: two months, one Monte Carlo run,
    the default template. *)
Definition config2 : Config := mkConfig (Some 2%nat) (Some 1%nat) None.

Lemma runSimulation_leaves_inputs_witness :
  exists history w',
    runSimulation mean_sampler config2 world0 = Normal history w'
    /\ (forall o x, heap world0 !! o = Some x -> heap w' !! o = Some x)
    /\ default_state w' = default_state world0.
Proof.
  exact (runSimulation_leaves_inputs mean_sampler config2 world0
           DEFAULT_STATE eq_refl).
Defined.

Lemma runSimulation_months_numbered_witness :
  exists history w',
    runSimulation mean_sampler config2 world0 = Normal history w'
    /\ forall i snap, history !! i = Some snap -> snap_month snap = S i.
Proof.
  exact (runSimulation_months_numbered mean_sampler config2 world0
           DEFAULT_STATE eq_refl).
Defined.

Lemma runSimulation_full_length_or_bankrupt_witness :
  exists history w',
    runSimulation mean_sampler config2 world0 = Normal history w'
    /\ (length history = 2%nat
        \/ ((length history < 2)%nat
            /\ exists snap,
                last history = Some snap
                /\ (snap_cash snap <=? real 0)%J = true))
    /\ (months config2 = Some O -> history = []).
Proof.
  exact (runSimulation_full_length_or_bankrupt mean_sampler config2 world0
           DEFAULT_STATE eq_refl).
Defined.

Lemma runSimulation_trajectory_witness :
  exists history w',
    runSimulation mean_sampler config2 world0 = Normal history w'
    /\ (forall a,
          history !! O = Some a ->
          one_month mean_sampler (snap_action a) (JSON_clone DEFAULT_STATE)
            (state_of a))
    /\ (forall i a b,
          history !! i = Some a -> history !! S i = Some b ->
          one_month mean_sampler (snap_action b) (state_of a) (state_of b)).
Proof.
  exact (runSimulation_trajectory mean_sampler config2 world0 DEFAULT_STATE
           eq_refl).
Defined.

Lemma runSimulation_zero_runs_null_actions_witness :
  exists history w',
    runSimulation mean_sampler (mkConfig (Some 2%nat) (Some O) None) world0
    = Normal history w'
    /\ Forall (fun snap => snap_action snap = Null) history.
Proof.
  exact (runSimulation_zero_runs_null_actions mean_sampler
           (mkConfig (Some 2%nat) (Some O) None) world0 DEFAULT_STATE
           eq_refl eq_refl).
Defined.

Lemma runSimulation_actions_known_witness :
  exists history w',
    runSimulation mean_sampler config2 world0 = Normal history w'
    /\ Forall (fun snap => exists a, In a ACTIONS /\ snap_action snap = Str a)
         history.
Proof.
  exact (runSimulation_actions_known mean_sampler config2 world0
           DEFAULT_STATE eq_refl (le_n 1)).
Defined.


Lemma runSimulation_slow_fields_witness :
  exists history w',
    runSimulation mean_sampler config2 world0 = Normal history w'
    /\ forall i a b,
        history !! i = Some a -> history !! S i = Some b ->
        ((real 0 <=? snap_salary a)%J = true ->
         (snap_salary a <=? snap_salary b)%J = true)
        /\ (snap_happiness a <> NaN ->
            (snap_happiness b <=? snap_happiness a)%J = true)
        /\ (strict_eq (snap_action b) "INVEST" = false ->
            snap_investment b = snap_investment a).
Proof.
  exact (runSimulation_slow_fields mean_sampler config2 world0 DEFAULT_STATE
           eq_refl).
Defined.

Lemma algo_main_is_the_driver_loop_witness :
  exists history w',
    simulate mean_sampler 1%positive 100 1 24 [] world0 = Normal history w'
    /\ Algo.main mean_sampler 1%positive world0 = Normal tt w'.
Proof.
  exact (proj2 (algo_main_is_the_driver_loop mean_sampler 1%positive world0
                  DEFAULT_STATE eq_refl)).
Defined.

(** ** A longer horizon extends the history *)

Section HorizonFacts.
Context {rng : Type}.
Variable sample : num -> num -> rng -> num * rng.

Implicit Types (w : @world rng) (o : positive) (s : FinanceState).

(** One iteration of the loop of [runSimulation], whatever the number of
    months left after it and the history so far. *)
Lemma simulate_unfold state monteCarloRuns month w s :
  heap w !! state = Some s ->
  exists snap w2,
    heap w2 !! state = Some (state_of snap)
    /\ forall left history,
        simulate sample state monteCarloRuns month (S left) history w
        = if (snap_cash snap <=? real 0)%J
          then Normal (history ++ [snap]) w2
          else simulate sample state monteCarloRuns (S month) left
                 (history ++ [snap]) w2.
Proof.
  intros H.
  destruct (chooseBestAction_returns sample state monteCarloRuns w s H)
    as (best & w1 & Hbest & Hext).
  pose proof (extends_lookup _ _ _ _ Hext H) as H1.
  pose proof (updateEconomy_run sample state
                (with_object state (action_effect best s) (gen w1) w1)
                _ (with_object_lookup _ _ _ _)) as Hstep.
  cbv zeta in Hstep. rewrite with_object_twice in Hstep.
  match type of Hstep with
  | _ = Normal tt (with_object state ?s2 ?g2 w1) =>
      exists (snapshot month best s2), (with_object state s2 g2 w1)
  end.
  split; [rewrite state_of_snapshot; apply with_object_lookup |].
  intros left history. cbn [simulate].
  rewrite (bind_normal _ _ _ _ _ Hbest).
  rewrite (bind_normal _ _ _ _ _ (applyAction_run state w1 s best H1)).
  rewrite (bind_normal _ _ _ _ _ Hstep).
  erewrite bind_normal by (apply load_run, with_object_lookup).
  erewrite bind_normal by (apply get_run, with_object_lookup).
  cbn [snap_cash snapshot].
  match goal with
  | |- context [(?c <=? real 0)%J] => destruct (c <=? real 0)%J
  end; reflexivity.
Qed.

Lemma simulate_prefix state monteCarloRuns left :
  forall month history w s,
    heap w !! state = Some s ->
    exists h1 w1 h2 w2,
      simulate sample state monteCarloRuns month left history w
      = Normal h1 w1
      /\ simulate sample state monteCarloRuns month (S left) history w
         = Normal h2 w2
      /\ h1 `prefix_of` h2.
Proof.
  induction left as [| left IH]; intros month history w s H.
  - destruct (simulate_run sample state monteCarloRuns 1 month history w s H)
      as (tail & w' & Hrun & _).
    exists history, w, (history ++ tail), w'.
    split; [reflexivity |]. split; [assumption |].
    apply prefix_app_r. reflexivity.
  - destruct (simulate_unfold state monteCarloRuns month w s H)
      as (snap & w2 & Hs2 & Heq).
    rewrite (Heq left history), (Heq (S left) history).
    destruct (snap_cash snap <=? real 0)%J.
    + exists (history ++ [snap]), w2, (history ++ [snap]), w2.
      split; [reflexivity |]. split; reflexivity.
    + apply (IH (S month) (history ++ [snap]) w2 _ Hs2).
Qed.

(** X24: simulating one month more does not change the months before it:
    from the same world, the history for [m] months is a prefix of the
    history for [m + 1] months. *)
Theorem runSimulation_longer_horizon_extends (m : nat)
    (runs : option nat) (initial : option positive) w template :
  initial_template initial w = Normal template w ->
  exists h1 w1 h2 w2,
    runSimulation sample (mkConfig (Some m) runs initial) w = Normal h1 w1
    /\ runSimulation sample (mkConfig (Some (S m)) runs initial) w
       = Normal h2 w2
    /\ h1 `prefix_of` h2.
Proof.
  intros Htemplate. unfold runSimulation.
  cbn [months monteCarloRuns initialState default].
  rewrite !(bind_normal _ _ _ _ _ Htemplate).
  set (state := fresh (dom (heap w))).
  assert (Halloc : alloc (JSON_clone template) w
                   = Normal state
                       (with_object state (JSON_clone template) (gen w) w))
    by reflexivity.
  rewrite !(bind_normal _ _ _ _ _ Halloc).
  apply (simulate_prefix state _ m 1 []
           (with_object state (JSON_clone template) (gen w) w)
           (JSON_clone template) (with_object_lookup _ _ _ _)).
Qed.

End HorizonFacts.

Lemma runSimulation_longer_horizon_extends_witness :
  exists h1 w1 h2 w2,
    runSimulation mean_sampler (mkConfig (Some 1%nat) (Some 1%nat) None) world0
    = Normal h1 w1
    /\ runSimulation mean_sampler (mkConfig (Some 2%nat) (Some 1%nat) None)
         world0 = Normal h2 w2
    /\ h1 `prefix_of` h2.
Proof.
  exact (runSimulation_longer_horizon_extends mean_sampler 1 (Some 1%nat)
           None world0 DEFAULT_STATE eq_refl).
Defined.

(** ** Happiness plays no part in a decision *)

(** Two states with the same fields, happiness apart. *)
Definition same_finances (s1 s2 : FinanceState) : Prop :=
  cash s1 = cash s2 /\ salary s1 = salary s2 /\ expenses s1 = expenses s2
  /\ inflation s1 = inflation s2 /\ investment s1 = investment s2.

Lemma same_finances_clone s1 s2 :
  same_finances s1 s2 -> same_finances (JSON_clone s1) (JSON_clone s2).
Proof.
  intros (Hc & Hsa & He & Hi & Hv). unfold same_finances. cbn.
  rewrite Hc, Hsa, He, Hi, Hv. auto.
Qed.

Lemma same_finances_action a s1 s2 :
  same_finances s1 s2 ->
  same_finances (action_effect a s1) (action_effect a s2).
Proof.
  intros (Hc & Hsa & He & Hi & Hv). unfold same_finances, action_effect.
  repeat match goal with
         | |- context [strict_eq a ?l] => destruct (strict_eq a l)
         end; cbn; rewrite ?Hc, ?Hsa, ?He, ?Hi, ?Hv; auto.
Qed.

Lemma same_finances_step x y s1 s2 :
  same_finances s1 s2 ->
  same_finances (economy_step x y s1) (economy_step x y s2).
Proof.
  intros (Hc & Hsa & He & Hi & Hv). unfold same_finances, economy_step. cbn.
  rewrite Hc, Hsa, He, Hi, Hv. auto.
Qed.

Section HappinessFacts.
Context {rng : Type}.
Variable sample : num -> num -> rng -> num * rng.

Implicit Types (w : @world rng) (o : positive) (s : FinanceState).

Lemma forecast_months_related left : forall o1 o2 w1 w2 s1 s2,
  heap w1 !! o1 = Some s1 -> heap w2 !! o2 = Some s2 ->
  gen w1 = gen w2 -> same_finances s1 s2 ->
  exists s1' s2' g',
    forecast_months sample o1 left w1 = Normal tt (with_object o1 s1' g' w1)
    /\ forecast_months sample o2 left w2 = Normal tt (with_object o2 s2' g' w2)
    /\ same_finances s1' s2'.
Proof.
  induction left as [| left IH]; intros o1 o2 w1 w2 s1 s2 H1 H2 Hg HR.
  - exists s1, s2, (gen w1). cbn [forecast_months]. unfold ret.
    rewrite (with_object_same o1 s1 w1 H1).
    rewrite Hg, (with_object_same o2 s2 w2 H2). auto.
  - cbn [forecast_months].
    rewrite (bind_normal _ _ _ _ _ (updateEconomy_run sample o1 w1 s1 H1)).
    rewrite (bind_normal _ _ _ _ _ (updateEconomy_run sample o2 w2 s2 H2)).
    rewrite <- Hg.
    set (x := fst (sample (real 0) (real 0.01) (gen w1))).
    set (g1 := snd (sample (real 0) (real 0.01) (gen w1))).
    set (y := fst (sample (real 0.05) (real 0.1) g1)).
    set (g2 := snd (sample (real 0.05) (real 0.1) g1)).
    pose proof (same_finances_step x y s1 s2 HR) as HR'.
    rewrite (bind_normal _ _ _ _ _
               (get_run cash o1 _ _ (with_object_lookup _ _ _ _))).
    rewrite (bind_normal _ _ _ _ _
               (get_run cash o2 _ _ (with_object_lookup _ _ _ _))).
    rewrite <- (proj1 HR').
    destruct (cash (economy_step x y s1) <=? real 0)%J.
    + exists (economy_step x y s1), (economy_step x y s2), g2. auto.
    + destruct (IH o1 o2 (with_object o1 (economy_step x y s1) g2 w1)
                  (with_object o2 (economy_step x y s2) g2 w2) _ _
                  (with_object_lookup _ _ _ _) (with_object_lookup _ _ _ _)
                  eq_refl HR')
        as (s1' & s2' & g' & Hr1 & Hr2 & HR'').
      exists s1', s2', g'. rewrite Hr1, Hr2, !with_object_twice. auto.
Qed.

Lemma forecast_trial_related action FORECAST_MONTHS c1 c2 w1 w2 s1 s2 :
  heap w1 !! c1 = Some s1 -> heap w2 !! c2 = Some s2 ->
  gen w1 = gen w2 -> same_finances s1 s2 ->
  exists c s1' s2' g',
    forecast_trial sample c1 action FORECAST_MONTHS w1
    = Normal c (with_object (fresh (dom (heap w1))) s1' g' w1)
    /\ forecast_trial sample c2 action FORECAST_MONTHS w2
       = Normal c (with_object (fresh (dom (heap w2))) s2' g' w2).
Proof.
  intros H1 H2 Hg HR. unfold forecast_trial.
  rewrite (bind_normal _ _ _ _ _ (load_run _ _ _ H1)).
  rewrite (bind_normal _ _ _ _ _ (load_run _ _ _ H2)).
  set (o1 := fresh (dom (heap w1))). set (o2 := fresh (dom (heap w2))).
  assert (Ha1 : alloc (JSON_clone s1) w1
                = Normal o1 (with_object o1 (JSON_clone s1) (gen w1) w1))
    by reflexivity.
  assert (Ha2 : alloc (JSON_clone s2) w2
                = Normal o2 (with_object o2 (JSON_clone s2) (gen w2) w2))
    by reflexivity.
  rewrite (bind_normal _ _ _ _ _ Ha1), (bind_normal _ _ _ _ _ Ha2).
  rewrite (bind_normal _ _ _ _ _
             (applyAction_run o1 _ _ action (with_object_lookup _ _ _ _))).
  rewrite (bind_normal _ _ _ _ _
             (applyAction_run o2 _ _ action (with_object_lookup _ _ _ _))).
  rewrite !with_object_twice. cbn [gen with_object].
  fold (with_object o1 (action_effect action (JSON_clone s1)) (gen w1) w1).
  fold (with_object o2 (action_effect action (JSON_clone s2)) (gen w2) w2).
  destruct (forecast_months_related FORECAST_MONTHS o1 o2
              (with_object o1 (action_effect action (JSON_clone s1)) (gen w1) w1)
              (with_object o2 (action_effect action (JSON_clone s2)) (gen w2) w2)
              _ _ (with_object_lookup _ _ _ _) (with_object_lookup _ _ _ _) Hg
              (same_finances_action action _ _ (same_finances_clone _ _ HR)))
    as (s1' & s2' & g' & Hr1 & Hr2 & HR').
  rewrite (bind_normal _ _ _ _ _ Hr1), (bind_normal _ _ _ _ _ Hr2).
  rewrite !with_object_twice.
  exists (cash s1'), s1', s2', g'. split.
  - apply get_run, with_object_lookup.
  - rewrite (proj1 HR'). apply get_run, with_object_lookup.
Qed.

Lemma forecast_runs_related action FORECAST_MONTHS c1 c2 s1 s2 left :
  same_finances s1 s2 ->
  forall w1 w2 surviveCount totalCash,
    heap w1 !! c1 = Some s1 -> heap w2 !! c2 = Some s2 ->
    gen w1 = gen w2 ->
    exists r w1' w2',
      forecast_runs sample c1 action FORECAST_MONTHS left surviveCount
        totalCash w1 = Normal r w1'
      /\ forecast_runs sample c2 action FORECAST_MONTHS left surviveCount
           totalCash w2 = Normal r w2'
      /\ gen w1' = gen w2'
      /\ extends w1 w1' /\ extends w2 w2'.
Proof.
  intros HR.
  induction left as [| left IH]; intros w1 w2 k t H1 H2 Hg.
  - exists (k, t), w1, w2. cbn [forecast_runs]. unfold ret.
    auto using extends_refl.
  - cbn [forecast_runs].
    destruct (forecast_trial_related action FORECAST_MONTHS c1 c2 w1 w2 s1 s2
                H1 H2 Hg HR) as (c & s1' & s2' & g' & Ht1 & Ht2).
    rewrite (bind_normal _ _ _ _ _ Ht1), (bind_normal _ _ _ _ _ Ht2).
    set (v1 := with_object (fresh (dom (heap w1))) s1' g' w1).
    set (v2 := with_object (fresh (dom (heap w2))) s2' g' w2).
    assert (He1 : extends w1 v1) by apply extends_fresh.
    assert (He2 : extends w2 v2) by apply extends_fresh.
    pose proof (extends_lookup _ _ _ _ He1 H1) as H1'.
    pose proof (extends_lookup _ _ _ _ He2 H2) as H2'.
    destruct (c >? real 0)%J.
    + destruct (IH v1 v2 (S k) (t + c)%J H1' H2' eq_refl)
        as (r & w1' & w2' & Hr1 & Hr2 & Hg' & He1' & He2').
      exists r, w1', w2'. eauto 10 using extends_trans.
    + destruct (IH v1 v2 k t H1' H2' eq_refl)
        as (r & w1' & w2' & Hr1 & Hr2 & Hg' & He1' & He2').
      exists r, w1', w2'. eauto 10 using extends_trans.
Qed.

Lemma choose_loop_related monteCarloRuns c1 c2 s1 s2 actions :
  same_finances s1 s2 ->
  forall w1 w2 bestAction bestScore,
    heap w1 !! c1 = Some s1 -> heap w2 !! c2 = Some s2 ->
    gen w1 = gen w2 ->
    exists best w1' w2',
      choose_loop sample c1 monteCarloRuns actions bestAction bestScore w1
      = Normal best w1'
      /\ choose_loop sample c2 monteCarloRuns actions bestAction bestScore w2
         = Normal best w2'
      /\ gen w1' = gen w2'.
Proof.
  intros HR.
  induction actions as [| a actions IH]; intros w1 w2 b sc H1 H2 Hg.
  - exists b, w1, w2. auto.
  - cbn [choose_loop]. unfold forecastSurvival.
    destruct (forecast_runs_related (Str a) FORECAST_MONTHS_default c1 c2
                s1 s2 monteCarloRuns HR w1 w2 O (real 0) H1 H2 Hg)
      as (r & w1' & w2' & Hr1 & Hr2 & Hg' & He1 & He2).
    rewrite !bind_assoc.
    rewrite (bind_normal _ _ _ _ _ Hr1), (bind_normal _ _ _ _ _ Hr2).
    assert (Hret : forall (f : ForecastResult) (k : ForecastResult -> M value)
                          (w : @world rng), bind (ret f) k w = k f w)
      by reflexivity.
    rewrite !Hret.
    destruct (calculateUtility _ >? sc)%J;
      apply IH; eauto using extends_lookup.
Qed.

(** X25: the happiness of a state plays no part in a decision.  For two
    state objects whose cash, salary, expenses, inflation and investment
    are the same, and the same generator state, [chooseBestAction] returns
    the same action and leaves the same generator state. *)
Theorem chooseBestAction_ignores_happiness monteCarloRuns c1 c2 w1 w2 s1 s2 :
  heap w1 !! c1 = Some s1 -> heap w2 !! c2 = Some s2 ->
  gen w1 = gen w2 ->
  same_finances s1 s2 ->
  exists best w1' w2',
    chooseBestAction sample c1 monteCarloRuns w1 = Normal best w1'
    /\ chooseBestAction sample c2 monteCarloRuns w2 = Normal best w2'
    /\ gen w1' = gen w2'.
Proof.
  intros H1 H2 Hg HR.
  exact (choose_loop_related monteCarloRuns c1 c2 s1 s2 ACTIONS HR w1 w2
           Null NInf H1 H2 Hg).
Qed.

End HappinessFacts.

(** The default state with another happiness, in a world of its own. *)
Definition state_unhappy : FinanceState :=
  mkState (real 10000) (real 3000) (real 2500) (real 0.05) (real 0) (real 3).

Definition world_unhappy : @world unit :=
  mkWorld {[ 1%positive := state_unhappy ]} DEFAULT_STATE tt.

Lemma chooseBestAction_ignores_happiness_witness :
  same_finances DEFAULT_STATE state_unhappy
  /\ exists best w1' w2',
      chooseBestAction mean_sampler 1%positive 1 world0 = Normal best w1'
      /\ chooseBestAction mean_sampler 1%positive 1 world_unhappy
         = Normal best w2'
      /\ gen w1' = gen w2'.
Proof.
  assert (HR : same_finances DEFAULT_STATE state_unhappy)
    by (repeat split; reflexivity).
  split; [assumption |].
  exact (chooseBestAction_ignores_happiness mean_sampler 1 1%positive
           1%positive world0 world_unhappy DEFAULT_STATE state_unhappy
           eq_refl eq_refl eq_refl HR).
Defined.

(** ** The forecaster on any number of runs

    [MONTE_CARLO_RUNS] reaches [forecastSurvival] as whatever number the
    caller passes: the loop compares its counter with it and the result
    divides by it.  The loop is modelled here with the bound as a number;
    the model makes at most [fuel] tests of [i < MONTE_CARLO_RUNS] and
    returns [None] when the loop has not ended by then. *)

Fixpoint forecast_loop {rng : Type} (sample : num -> num -> rng -> num * rng)
    (currentState : positive) (action : value) (FORECAST_MONTHS : nat)
    (MONTE_CARLO_RUNS : num) (fuel i surviveCount : nat) (totalCash : num)
    : M (rng := rng) (option (nat * num)) :=
  match fuel with
  | O => ret None
  | S fuel' =>
      if Num.ltb (Num.of_nat i) MONTE_CARLO_RUNS then
        bind (forecast_trial sample currentState action FORECAST_MONTHS)
          (fun c =>
             if (c >? real 0)%J then
               forecast_loop sample currentState action FORECAST_MONTHS
                 MONTE_CARLO_RUNS fuel' (S i) (S surviveCount)
                 (totalCash + c)%J
             else
               forecast_loop sample currentState action FORECAST_MONTHS
                 MONTE_CARLO_RUNS fuel' (S i) surviveCount totalCash)
      else ret (Some (surviveCount, totalCash))
  end.

Definition forecast_result_number (MONTE_CARLO_RUNS : num)
    (surviveCount : nat) (totalCash : num) : ForecastResult :=
  mkForecast (Num.of_nat surviveCount / MONTE_CARLO_RUNS)%J
             (totalCash / Num.of_nat (or_one surviveCount))%J.

Definition forecastSurvival_number {rng : Type}
    (sample : num -> num -> rng -> num * rng)
    (currentState : positive) (action : value)
    (MONTE_CARLO_RUNS : num) (FORECAST_MONTHS fuel : nat)
    : M (rng := rng) (option ForecastResult) :=
  bind (forecast_loop sample currentState action FORECAST_MONTHS
          MONTE_CARLO_RUNS fuel O O (real 0))
    (fun r =>
       ret (option_map
              (fun kt => forecast_result_number MONTE_CARLO_RUNS
                           (fst kt) (snd kt)) r)).

(** [trips RUNS n]: the test [i < RUNS] holds for the counters below [n]
    and for no other, so that the loop makes [n] trials. *)
Definition trips (MONTE_CARLO_RUNS : num) (n : nat) : Prop :=
  forall i, Num.ltb (Num.of_nat i) MONTE_CARLO_RUNS = (i <? n)%nat.

Lemma trips_of_nat (n : nat) : trips (Num.of_nat n) n.
Proof.
  intros i. unfold Num.ltb, Num.of_nat.
  destruct (i <? n)%nat eqn:E.
  - apply Nat.ltb_lt in E.
    destruct (Qle_bool (inject_Z (Z.of_nat n)) (inject_Z (Z.of_nat i))) eqn:F;
      [| reflexivity].
    apply Qle_bool_iff in F. rewrite <- Zle_Qle in F. lia.
  - apply Nat.ltb_ge in E.
    assert (F : Qle_bool (inject_Z (Z.of_nat n)) (inject_Z (Z.of_nat i))
                = true)
      by (apply Qle_bool_iff; rewrite <- Zle_Qle; lia).
    rewrite F. reflexivity.
Qed.

(** A positive rational bound gives as many trials as its ceiling. *)
Lemma trips_ceiling (q : Q) : 0 < q -> trips (Fin q) (Z.to_nat (Qceiling q)).
Proof.
  intros Hq i. unfold Num.ltb, Num.of_nat.
  pose proof (Qle_ceiling q) as Hup.
  pose proof (Qceiling_lt q) as Hlow.
  assert (Hc : (0 < Qceiling q)%Z).
  { rewrite Zlt_Qlt. change (inject_Z 0) with 0. lra. }
  destruct (i <? Z.to_nat (Qceiling q))%nat eqn:E.
  - apply Nat.ltb_lt in E.
    assert (Hi : (Z.of_nat i <= Qceiling q - 1)%Z) by lia.
    rewrite Zle_Qle in Hi.
    destruct (Qle_bool q (inject_Z (Z.of_nat i))) eqn:F; [| reflexivity].
    apply Qle_bool_iff in F. lra.
  - apply Nat.ltb_ge in E.
    assert (Hi : (Qceiling q <= Z.of_nat i)%Z) by lia.
    rewrite Zle_Qle in Hi.
    assert (F : Qle_bool q (inject_Z (Z.of_nat i)) = true)
      by (apply Qle_bool_iff; lra).
    rewrite F. reflexivity.
Qed.


Section AnyRuns.
Context {rng : Type}.
Variable sample : num -> num -> rng -> num * rng.

Implicit Types (w : @world rng) (o : positive) (s : FinanceState).

(** With a bound that gives [n] trials and enough fuel, the loop on a number
    is the loop on [n]. *)
Lemma forecast_loop_trips currentState action FORECAST_MONTHS
    MONTE_CARLO_RUNS n :
  trips MONTE_CARLO_RUNS n ->
  forall left fuel i surviveCount totalCash w,
    (i + left = n)%nat -> (left < fuel)%nat ->
    forecast_loop sample currentState action FORECAST_MONTHS
      MONTE_CARLO_RUNS fuel i surviveCount totalCash w
    = bind (forecast_runs sample currentState action FORECAST_MONTHS left
              surviveCount totalCash)
        (fun r => ret (Some r)) w.
Proof.
  intros Htrips. induction left as [| left IH];
    intros fuel i k t w Hi Hfuel;
    (destruct fuel as [| fuel]; [lia |]);
    cbn [forecast_loop forecast_runs]; rewrite Htrips.
  - replace (i <? n)%nat with false
      by (symmetry; apply Nat.ltb_ge; lia).
    reflexivity.
  - replace (i <? n)%nat with true
      by (symmetry; apply Nat.ltb_lt; lia).
    rewrite bind_assoc. apply bind_ext. intros c w1.
    destruct (c >? real 0)%J; apply IH; lia.
Qed.

Lemma forecastSurvival_number_trips currentState action FORECAST_MONTHS
    MONTE_CARLO_RUNS n fuel w :
  trips MONTE_CARLO_RUNS n -> (n < fuel)%nat ->
  forecastSurvival_number sample currentState action MONTE_CARLO_RUNS
    FORECAST_MONTHS fuel w
  = bind (forecast_runs sample currentState action FORECAST_MONTHS n
            O (real 0))
      (fun r => ret (Some (forecast_result_number MONTE_CARLO_RUNS
                             (fst r) (snd r)))) w.
Proof.
  intros Htrips Hfuel. unfold forecastSurvival_number, bind at 1.
  rewrite (forecast_loop_trips currentState action FORECAST_MONTHS
             MONTE_CARLO_RUNS n Htrips n fuel O O (real 0) w
             (Nat.add_0_l n) Hfuel).
  unfold bind.
  destruct (forecast_runs sample currentState action FORECAST_MONTHS n
              O (real 0) w); reflexivity.
Qed.

(** On a whole number of runs, the forecaster on numbers is
    [forecastSurvival]. *)
Lemma forecastSurvival_number_whole currentState action FORECAST_MONTHS
    n fuel w :
  (n < fuel)%nat ->
  forecastSurvival_number sample currentState action (Num.of_nat n)
    FORECAST_MONTHS fuel w
  = bind (forecastSurvival sample currentState action n FORECAST_MONTHS)
      (fun r => ret (Some r)) w.
Proof.
  intros Hfuel.
  rewrite (forecastSurvival_number_trips currentState action
             FORECAST_MONTHS (Num.of_nat n) n fuel w (trips_of_nat n) Hfuel).
  unfold forecastSurvival. rewrite bind_assoc. reflexivity.
Qed.

(** With plus infinity for the number of runs the test [i < Infinity]
    never fails: the loop does not end, whatever the fuel. *)
Lemma forecast_loop_infinite_runs currentState action FORECAST_MONTHS s
    fuel :
  forall i surviveCount totalCash w,
    heap w !! currentState = Some s ->
    exists w',
      forecast_loop sample currentState action FORECAST_MONTHS PInf
        fuel i surviveCount totalCash w = Normal None w'.
Proof.
  induction fuel as [| fuel IH]; intros i k t w H.
  - exists w. reflexivity.
  - cbn [forecast_loop]. change (Num.ltb (Num.of_nat i) PInf) with true.
    cbv iota.
    destruct (forecast_trial_run sample any_state action
                (fun _ _ => I) (fun _ _ _ _ => I)
                currentState FORECAST_MONTHS w s H I)
      as (s' & g' & Hrun & _).
    rewrite (bind_normal _ _ _ _ _ Hrun).
    assert (H1 : heap (with_object (fresh (dom (heap w))) s' g' w)
                 !! currentState = Some s)
      by (exact (extends_lookup _ _ _ _ (extends_fresh _ _ _) H)).
    destruct (cash s' >? real 0)%J; apply IH; assumption.
Qed.


(** X6: with no month to simulate and a whole number of runs, at least one,
    the forecast never calls the sampler; the survival probability it
    returns is exactly 1 when the cash of the state after the action is
    positive, and exactly 0 otherwise. *)
Theorem forecast_zero_horizon_whole_runs currentState action n fuel w s :
  heap w !! currentState = Some s ->
  (0 < n)%nat ->
  (n < fuel)%nat ->
  exists r w',
    forecastSurvival_number sample currentState action (Num.of_nat n)
      0 fuel w = Normal (Some r) w'
    /\ gen w' = gen w
    /\ survivalProbability r
       = if (cash (action_effect action (JSON_clone s)) >? real 0)%J
         then real 1 else real 0.
Proof.
  intros H Hn Hfuel.
  destruct (forecast_zero_horizon sample currentState action n w s H Hn)
    as (r & w' & Hrun & Hgen & Hp).
  exists r, w'.
  rewrite (forecastSurvival_number_whole currentState action 0 n fuel w
             Hfuel).
  rewrite (bind_normal _ _ _ _ _ Hrun).
  split; [reflexivity |]. split; assumption.
Qed.
End AnyRuns.



Lemma forecast_zero_horizon_whole_runs_witness :
  heap world0 !! 1%positive = Some DEFAULT_STATE
  /\ exists r w',
      forecastSurvival_number mean_sampler 1%positive (Str "INVEST")
        (Num.of_nat 3) 0 5 world0 = Normal (Some r) w'
      /\ gen w' = gen world0
      /\ survivalProbability r = real 1.
Proof.
  assert (Hn : (0 < 3)%nat) by lia.
  assert (Hfuel : (3 < 5)%nat) by lia.
  split; [reflexivity |].
  destruct (forecast_zero_horizon_whole_runs mean_sampler 1%positive
              (Str "INVEST") 3 5 world0 DEFAULT_STATE eq_refl Hn Hfuel)
    as (r & w' & Hrun & Hgen & Hp).
  exists r, w'. split; [assumption |]. split; assumption.
Defined.

(** ** The selector on any number of runs *)

(** [chooseBestAction] with [monteCarloRuns] as a number, handed to the
    forecaster as it is; [fuel] bounds the loop of each forecast. *)
Fixpoint choose_loop_number {rng : Type}
    (sample : num -> num -> rng -> num * rng)
    (currentState : positive) (monteCarloRuns : num) (fuel : nat)
    (actions : list string) (bestAction : value) (bestScore : num)
    : M (rng := rng) (option value) :=
  match actions with
  | [] => ret (Some bestAction)
  | action :: actions' =>
      bind (forecastSurvival_number sample currentState (Str action)
              monteCarloRuns FORECAST_MONTHS_default fuel)
        (fun forecast =>
           match forecast with
           | None => ret None
           | Some forecast =>
               let utility := calculateUtility forecast in
               if (utility >? bestScore)%J then
                 choose_loop_number sample currentState monteCarloRuns fuel
                   actions' (Str action) utility
               else
                 choose_loop_number sample currentState monteCarloRuns fuel
                   actions' bestAction bestScore
           end)
  end.

Definition chooseBestAction_number {rng : Type}
    (sample : num -> num -> rng -> num * rng)
    (currentState : positive) (monteCarloRuns : num) (fuel : nat)
    : M (rng := rng) (option value) :=
  choose_loop_number sample currentState monteCarloRuns fuel ACTIONS
    Null NInf.

Lemma utility_number_above (q : Q) (k : nat) (t : num) :
  0 < q -> nonneg_or_inf t ->
  (calculateUtility (forecast_result_number (Fin q) k t) >? NInf)%J = true.
Proof.
  intros Hq Ht. unfold calculateUtility, forecast_result_number.
  cbn [survivalProbability expectedCash].
  assert (Hk : (0 < or_one k)%nat) by (destruct k; cbn; lia).
  pose proof (nonneg_or_inf_div_of_nat _ (or_one k) Hk Ht) as He.
  pose proof (nonneg_or_inf_div_10000 _ He) as He'.
  assert (Hp : exists p, (Num.of_nat k / Fin q)%J = Fin p).
  { unfold Num.div, Num.of_nat.
    assert (E : Qeq_bool q 0 = false) by (apply Qeq_bool_false; lra).
    rewrite E. eauto. }
  destruct Hp as [p ->].
  destruct (t / Num.of_nat (or_one k) / real 10000)%J as [| | e |];
    try contradiction; reflexivity.
Qed.

Section AnyRunsSelector.
Context {rng : Type}.
Variable sample : num -> num -> rng -> num * rng.

Implicit Types (w : @world rng) (o : positive) (s : FinanceState).

(** With a positive rational number of runs and enough fuel, a forecast
    returns, and the utility of its result is greater than minus infinity. *)
Lemma forecast_number_utility_above currentState action (q : Q) fuel w s :
  heap w !! currentState = Some s ->
  0 < q ->
  (Z.to_nat (Qceiling q) < fuel)%nat ->
  exists r w',
    forecastSurvival_number sample currentState action (Fin q)
      FORECAST_MONTHS_default fuel w = Normal (Some r) w'
    /\ extends w w'
    /\ (calculateUtility r >? NInf)%J = true.
Proof.
  intros H Hq Hfuel.
  destruct (forecastSurvival_run sample any_state nonneg_or_inf action
              (fun _ _ => I) (fun _ _ _ _ => I)
              (fun s0 t _ Hc Ht => nonneg_or_inf_add t (cash s0) Hc Ht)
              currentState (Z.to_nat (Qceiling q)) FORECAST_MONTHS_default
              w s H I (Qle_refl 0))
    as (k & t & w' & Hloop & _ & Hext & _ & _ & Ht).
  exists (forecast_result_number (Fin q) k t), w'.
  rewrite (forecastSurvival_number_trips sample currentState action
             FORECAST_MONTHS_default (Fin q) _ fuel w
             (trips_ceiling q Hq) Hfuel).
  rewrite (bind_normal _ _ _ _ _ Hloop).
  split; [reflexivity |]. split; [assumption |].
  apply utility_number_above; assumption.
Qed.

(** The loop of the selector, once the utilities are known, is [select]. *)
Lemma choose_loop_number_run currentState (q : Q) fuel s actions :
  0 < q ->
  (Z.to_nat (Qceiling q) < fuel)%nat ->
  forall w,
    heap w !! currentState = Some s ->
    exists us w',
      extends w w'
      /\ length us = length actions
      /\ Forall (fun u => (u >? NInf)%J = true) us
      /\ forall bestAction bestScore,
          choose_loop_number sample currentState (Fin q) fuel actions
            bestAction bestScore w
          = Normal (Some (select actions us bestAction bestScore)) w'.
Proof.
  intros Hq Hfuel.
  induction actions as [| a actions IH]; intros w H.
  - exists [], w. split; [apply extends_refl |].
    split; [reflexivity |]. split; [constructor | reflexivity].
  - destruct (forecast_number_utility_above currentState (Str a) q fuel
                w s H Hq Hfuel) as (r & w1 & Hf & Hext1 & HU).
    destruct (IH w1 (extends_lookup _ _ _ _ Hext1 H))
      as (us & w' & Hext & Hlen & HUs & Hloop).
    exists (calculateUtility r :: us), w'.
    split; [eauto using extends_trans |].
    split; [cbn; congruence |].
    split; [constructor; assumption |].
    intros b sc. cbn [choose_loop_number select].
    rewrite (bind_normal _ _ _ _ _ Hf). cbv zeta.
    destruct (calculateUtility r >? sc)%J; apply Hloop.
Qed.

(** On a whole number of runs, the selector on numbers is
    [chooseBestAction]. *)
Lemma choose_loop_number_whole currentState n fuel actions :
  (n < fuel)%nat ->
  forall bestAction bestScore w,
    choose_loop_number sample currentState (Num.of_nat n) fuel actions
      bestAction bestScore w
    = bind (choose_loop sample currentState n actions bestAction bestScore)
        (fun best => ret (Some best)) w.
Proof.
  intros Hfuel. induction actions as [| a actions IH]; intros b sc w.
  - reflexivity.
  - cbn [choose_loop_number choose_loop]. unfold bind at 1.
    rewrite (forecastSurvival_number_whole sample currentState (Str a)
               FORECAST_MONTHS_default n fuel w Hfuel).
    unfold bind.
    destruct (forecastSurvival sample currentState (Str a) n
                FORECAST_MONTHS_default w) as [r w1 | e]; [| reflexivity].
    cbn [ret]. cbv zeta.
    destruct (calculateUtility r >? sc)%J; rewrite IH; reflexivity.
Qed.

(** C10 (as amended): for every state object and every finite
    [monteCarloRuns] that is at least 1, whole or not, [chooseBestAction]
    returns a string of [ACTIONS] and never null: the utility of every
    candidate is greater than minus infinity (a rational or plus infinity,
    never NaN), so the first candidate replaces the initial null. *)
Theorem chooseBestAction_not_null currentState (q : Q) fuel w s :
  heap w !! currentState = Some s ->
  1 <= q ->
  (Z.to_nat (Qceiling q) < fuel)%nat ->
  (exists a w',
      chooseBestAction_number sample currentState (Fin q) fuel w
      = Normal (Some (Str a)) w'
      /\ In a ACTIONS)
  /\ (forall action w1,
        heap w1 !! currentState = Some s ->
        exists r w1',
          forecastSurvival_number sample currentState (Str action) (Fin q)
            FORECAST_MONTHS_default fuel w1 = Normal (Some r) w1'
          /\ (calculateUtility r >? NInf)%J = true).
Proof.
  intros H Hq1 Hfuel.
  assert (Hq : 0 < q) by lra.
  split.
  - destruct (choose_loop_number_run currentState q fuel s ACTIONS Hq Hfuel
                w H) as (us & w' & _ & Hlen & Habove & Hloop).
    destruct (select_spec ACTIONS us Null NInf Hlen)
      as [[_ Hall] | (i & a & u & Ha & _ & Hsel & _)].
    + destruct us as [| u0 us]; [discriminate |].
      apply Forall_cons in Habove. destruct Habove as [Hu0 _].
      rewrite (Hall O u0 eq_refl) in Hu0. discriminate.
    + exists a, w'.
      split; [unfold chooseBestAction_number; rewrite Hloop, Hsel;
              reflexivity |].
      apply list_elem_of_In. apply list_elem_of_lookup. eauto.
  - intros action w1 H1.
    destruct (forecast_number_utility_above currentState (Str action) q fuel
                w1 s H1 Hq Hfuel) as (r & w1' & Hrun & _ & Habove).
    exists r, w1'. split; assumption.
Qed.
End AnyRunsSelector.

Lemma chooseBestAction_not_null_witness :
  heap world0 !! 1%positive = Some DEFAULT_STATE
  /\ 1 <= 1.5
  /\ exists a w',
      chooseBestAction_number mean_sampler 1%positive (Fin 1.5) 5 world0
      = Normal (Some (Str a)) w'
      /\ In a ACTIONS.
Proof.
  assert (Hq : 1 <= 1.5) by (vm_compute; discriminate).
  assert (Hfuel : (Z.to_nat (Qceiling 1.5) < 5)%nat) by (vm_compute; lia).
  split; [reflexivity |]. split; [assumption |].
  exact (proj1 (chooseBestAction_not_null mean_sampler 1%positive 1.5 5
                  world0 DEFAULT_STATE eq_refl Hq Hfuel)).
Defined.

(** ** An infinite market return

    [randomNormal] returns an infinity when [Math.random] returns 0 for
    [u1]: [Math.log(0)] is minus infinity.  The sampler below gives plus
    infinity for the market return and a small rational for the inflation
    shock. *)
Definition boom_sampler (mean std : num) (g : unit) : num * unit :=
  (if num_eqb mean (real 0.05) then PInf else real 0.001, g).

(** From the default state with one run, the forecast for INVEST has an
    expected cash, and so a utility, of plus infinity, which is no real
    number; INVEST is what [chooseBestAction] returns. *)
Lemma chooseBestAction_infinite_utility :
  match forecastSurvival_number boom_sampler 1%positive (Str "INVEST")
          (real 1) FORECAST_MONTHS_default 5 world0 with
  | Normal (Some r) _ =>
      calculateUtility r = PInf /\ ~ Num.is_finite (calculateUtility r)
  | _ => False
  end
  /\ match chooseBestAction_number boom_sampler 1%positive (real 1) 5
             world0 with
     | Normal (Some best) _ => best = Str "INVEST"
     | _ => False
     end.
Proof.
  split.
  - vm_compute. split; [reflexivity | intros H; exact H].
  - vm_compute. reflexivity.
Qed.

(** Two updates with ordinary property names. *)
Definition update_cash : gmap string value :=
  {[ "cash"%string := Number (real 20000) ]}.

Definition update_inflation : gmap string value :=
  {[ "inflation"%string := Number PInf ]}.

Lemma setDefaultState_merges_witness :
  update_cash !! "__proto__"%string = None
  /\ update_inflation !! "__proto__"%string = None
  /\ Defaults.setDefaultState (Defaults.Object update_cash)
       Defaults.DEFAULT_STATE_literal !! "cash"%string
     = Some (Number (real 20000))
  /\ Defaults.setDefaultState (Defaults.Object update_inflation)
       (Defaults.setDefaultState (Defaults.Object update_cash)
          Defaults.DEFAULT_STATE_literal)
     = Defaults.setDefaultState
         (Defaults.Object (update_inflation ∪ update_cash))
         Defaults.DEFAULT_STATE_literal.
Proof.
  assert (H1 : update_cash !! "__proto__"%string = None) by reflexivity.
  assert (H2 : update_inflation !! "__proto__"%string = None)
    by reflexivity.
  split; [assumption |]. split; [assumption |].
  destruct (setDefaultState_merges update_cash update_inflation
              Defaults.DEFAULT_STATE_literal H1 H2) as [Hset Htwice].
  split; [| assumption].
  exact (Hset "cash"%string).
Defined.

Lemma getDefaultState_after_set_witness :
  update_inflation !! "__proto__"%string = None
  /\ Defaults.getDefaultState
       (Defaults.setDefaultState (Defaults.Object update_inflation)
          Defaults.DEFAULT_STATE_literal) !! "inflation"%string
     = Some Null.
Proof.
  assert (H : update_inflation !! "__proto__"%string = None)
    by reflexivity.
  split; [assumption |].
  destruct (getDefaultState_after_set update_inflation
              Defaults.DEFAULT_STATE_literal H) as [Hget _].
  exact (Hget "inflation"%string (Number PInf) eq_refl).
Defined.
